(** * Job handles of the BigQuery client: [src/job.ts]

    A shallow embedding of the [Job] class (constructor, [cancel],
    [getQueryResults], [getQueryResultsAsStream_], [poll_]) together with the
    part of the JavaScript object model those methods rely on: dynamically
    typed values, a store of mutable objects addressed by reference,
    truthiness, property reads and the [extend] merge of the npm package of
    that name. *)

From stdpp Require Import gmap strings list fin_maps pretty.

Open Scope string_scope.

#[local] Set Warnings "-register-all".

(** ** JavaScript values and the object store *)

Module Js.

(** References into the store.  Two references are the same object exactly
    when they are the same location ([===] on objects). *)
Abbreviation loc := nat.

(** Values.  Numbers are the integer-valued ones (the numeric options of this
    API, [maxResults], [startIndex], [timeoutMs], [maxApiCalls], are counts);
    arrays are never written by [job.ts] and are carried by value; every
    other object is a reference into the store. *)
Inductive value : Type :=
| Undefined
| Null
| Bool (b : bool)
| Num (n : Z)
| Str (s : string)
| Arr (elems : list value)
| Ref (l : loc).

(** What [Object.prototype.toString] distinguishes and [is.fn] tests. *)
Inductive kind := Plain | Function.

Record object := Object { obj_kind : kind; fields : gmap string value }.

Abbreviation heap := (gmap nat object).

Definition is_undefined (v : value) : bool :=
  match v with Undefined => true | _ => false end.

Definition is_nullish (v : value) : bool :=
  match v with Undefined | Null => true | _ => false end.

(** [if (v)], [!v], the left operand of [&&]. *)
Definition truthy (v : value) : bool :=
  match v with
  | Undefined | Null => false
  | Bool b => b
  | Num n => negb (n =? 0)%Z
  | Str s => negb (String.eqb s "")
  | Arr _ | Ref _ => true
  end.

(** [v === false] and [v !== 'DONE'], the two strict comparisons of the file. *)
Definition strict_eq_false (v : value) : bool :=
  match v with Bool false => true | _ => false end.

Definition strict_eq_str (v : value) (s : string) : bool :=
  match v with Str s' => String.eqb s' s | _ => false end.

(** [is.fn(v)]: [v] is a callable object. *)
Definition is_fn (h : heap) (v : value) : bool :=
  match v with
  | Ref l => match h !! l with
             | Some (Object Function _) => true
             | _ => false
             end
  | _ => false
  end.

(** Index-named properties of an array or of a string: ["0"], ["1"], ... *)
Definition index_fields (elems : list value) : gmap string value :=
  list_to_map (imap (λ i v, (pretty i, v)) elems).

Definition chars (s : string) : list value :=
  (λ c, Str (String c EmptyString)) <$> String.list_ascii_of_string s.

(** The properties a [for (name in v)] loop visits, with their values.
    Objects are the plain ones of this API (no enumerable property is
    inherited); numbers and booleans have none.  A reference to no object
    of the store, which no execution produces, is read as an object
    without properties. *)
Definition own (h : heap) (v : value) : gmap string value :=
  match v with
  | Ref l => match h !! l with Some o => fields o | None => ∅ end
  | Arr elems => index_fields elems
  | Str s => index_fields (chars s)
  | _ => ∅
  end.

(** Reading a property off a map of fields: a missing one reads [undefined]. *)
Definition prop (m : gmap string value) (name : string) : value :=
  default Undefined (m !! name).

(** [v.name].  Reading through [undefined] or [null] raises a [TypeError]
    ([None]).  [length] is the one non-enumerable property modelled. *)
Definition get (h : heap) (v : value) (name : string) : option value :=
  match v with
  | Undefined | Null => None
  | Arr elems =>
      Some (if String.eqb name "length" then Num (Z.of_nat (length elems))
            else prop (index_fields elems) name)
  | Str s =>
      Some (if String.eqb name "length" then Num (Z.of_nat (String.length s))
            else prop (index_fields (chars s)) name)
  | _ => Some (prop (own h v) name)
  end.

(** An object literal, or [new]: a fresh reference. *)
Definition alloc (h : heap) (o : object) : loc * heap :=
  let l := fresh (dom h) in (l, <[l := o]> h).

Definition literal (m : gmap string value) : object := Object Plain m.

(** ** [extend(target, ...sources)]

    The shallow merge of the npm package [extend]: every enumerable
    property of every non-nullish source is assigned onto the target, in
    argument order, except one whose value is [undefined]; the target is
    modified in place and returned.  (The targets in [job.ts] are always
    object literals written at the call site: the package's [deep] flag is
    never passed, and its guard against a property whose value is the
    target itself never fires, no object holding a literal just written.) *)
Definition defined (m : gmap string value) : gmap string value :=
  filter (λ kv, is_undefined kv.2 = false) m.

Definition assign (src tgt : gmap string value) : gmap string value :=
  defined src ∪ tgt.

Definition extend1 (target : loc) (h : heap) (source : value) : heap :=
  if is_nullish source then h
  else match h !! target with
       | Some (Object k m) => <[target := Object k (assign (own h source) m)]> h
       | None => h
       end.

Definition extend (h : heap) (target : loc) (sources : list value) : heap :=
  foldl (extend1 target) h sources.

Global Arguments extend : simpl never.

End Js.

(** ** The [Job] class *)

Module Job.
Import Js.

(** The state of a job handle that the methods below read: [this.id] and
    [this.location] (which reads [undefined] when the constructor left it
    unset). *)
Record t := Make { id : string; location : value }.

(** The [reqOpts] literals handed to the request collaborators; [None] is a
    key the literal does not write. *)
Record reqOpts := ReqOpts { method : option string; uri : string; qs : value }.

(** Calls into collaborators that take a callback. *)
Inductive call :=
| BigQueryRequest (r : reqOpts)       (* this.bigQuery.request(r, cb) *)
| Request (r : reqOpts)               (* this.request(r, cb), relative to the job *)
| GetMetadata                         (* this.getMetadata(cb) *)
| GetQueryResults (options : value).  (* this.getQueryResults(options, cb) *)

(** How a method, or the function it handed to a collaborator, ends: by
    calling a callback with arguments, or by an uncaught [TypeError]. *)
Inductive outcome :=
| Invoke (callback : value) (args : list value)
| Throw.

(** A method body: it either ends, or calls a collaborator and goes on when
    the collaborator calls back with its arguments, in the store as it is
    by then. *)
Inductive prog :=
| Ret (o : outcome) (h : heap)
| Perform (c : call) (h : heap) (k : list value → heap → prog).

(** The store a method body leaves when it ends or hands over. *)
Definition store_of (p : prog) : heap :=
  match p with Ret _ h | Perform _ h _ => h end.

(** The collaborators taken together: what they call back with, and the
    store they leave. *)
Definition world := call → heap → list value * heap.

Fixpoint run (w : world) (p : prog) : list call * outcome * heap :=
  match p with
  | Ret o h => ([], o, h)
  | Perform c h k =>
      let '(reply, h') := w c h in
      let '(calls, o, h'') := run w (k reply h') in
      (c :: calls, o, h'')
  end.

(** The [i]-th parameter of a callback; a missing argument is [undefined]. *)
Definition arg (i : nat) (args : list value) : value := nth i args Undefined.

Definition or_throw (h : heap) (r : option (outcome * heap)) : prog :=
  match r with
  | Some (o, h') => Ret o h'
  | None => Ret Throw h
  end.

(** [constructor(bigQuery, id, options)], lines 83-235: [location] is set
    only from a truthy [options.location]. *)
Definition new (h : heap) (id : string) (options : value) : t :=
  Make id (if truthy options
           then match get h options "location" with
                | Some v => if truthy v then v else Undefined
                | None => Undefined
                end
           else Undefined).

(** [cancel(callback)], lines 294-309. *)
Definition cancel (this : t) (callback : value) (h : heap) : prog :=
  let '(qs, h) :=
    if truthy (location this)
    then let '(l, h) := alloc h (literal {["location" := location this]}) in
         (Ref l, h)
    else (Undefined, h) in
  Perform (Request (ReqOpts (Some "POST") "/cancel" qs)) h
          (λ reply h, Ret (Invoke callback reply) h).

Section Collaborators.

(** [this.bigQuery.mergeSchemaWithRows_(schema, rows)] is defined in the
    client class, outside this file, and is taken as given: a function of
    its two arguments and of the store they point into (the row decoder of
    the specification, 4.1, has no side effects), giving the decoded rows,
    or [None] when it throws. *)
Variable mergeSchemaWithRows_ : heap → value → value → option value.

(** [new util.ApiError(errorBody)], from [@google-cloud/common], taken as
    given: the object the constructor builds, or [None] when the
    constructor raises. *)
Variable ApiError : heap → value → option object.

(** [let rows = []; if (resp.schema && resp.rows) rows = merge(...)],
    lines 417-421. *)
Definition rows_of (h : heap) (resp : value) : option value :=
  schema ← get h resp "schema";
  if truthy schema then
    rows ← get h resp "rows";
    if truthy rows then mergeSchemaWithRows_ h schema rows else Some (Arr [])
  else Some (Arr []).

(** [nextQuery], lines 423-432. *)
Definition nextQuery_of (h : heap) (options resp : value) : option (value * heap) :=
  jobComplete ← get h resp "jobComplete";
  if strict_eq_false jobComplete then
    let '(l, h) := alloc h (literal ∅) in
    Some (Ref l, extend h l [options])
  else
    pageToken ← get h resp "pageToken";
    if truthy pageToken then
      let '(l, h) := alloc h (literal ∅) in
      let '(l', h) := alloc h (literal {["pageToken" := pageToken]}) in
      Some (Ref l, extend h l [options; Ref l'])
    else Some (Null, h).

(** The arrow function [(err, resp) => ...], lines 411-435. *)
Definition onQueryResults (options callback : value)
    (reply : list value) (h : heap) : prog :=
  let err := arg 0 reply in
  let resp := arg 1 reply in
  if truthy err then Ret (Invoke callback [err; Null; Null; resp]) h
  else or_throw h (
    rows ← rows_of h resp;
    '(nextQuery, h') ← nextQuery_of h options resp;
    Some (Invoke callback [Null; rows; nextQuery; resp], h')).

(** [getQueryResults(options, callback)], lines 393-437. *)
Definition getQueryResults (this : t) (options callback : value) (h : heap) : prog :=
  let '(options, callback, h) :=
    if is_fn h options
    then let '(l, h) := alloc h (literal ∅) in (Ref l, options, h)
    else (options, callback, h) in
  let '(l, h) := alloc h (literal {["location" := location this]}) in
  let h := extend h l [options] in
  let options := Ref l in
  Perform (BigQueryRequest (ReqOpts None ("/queries/" +:+ id this) options)) h
          (onQueryResults options callback).

(** [getQueryResultsAsStream_(options, callback)], lines 445-448. *)
Definition getQueryResultsAsStream_ (this : t) (options callback : value)
    (h : heap) : prog :=
  let '(l, h) := alloc h (literal {["autoPaginate" := Bool false]}) in
  let h := extend h l [options] in
  Perform (GetQueryResults (Ref l)) h
          (λ reply h, Ret (Invoke callback reply) h).

(** [if (!err && apiResponse.status && apiResponse.status.errors)
      err = new util.ApiError(apiResponse.status)], lines 463-465. *)
Definition status_error (h : heap) (err apiResponse : value) : option (value * heap) :=
  if truthy err then Some (err, h)
  else
    status ← get h apiResponse "status";
    if truthy status then
      errors ← get h status "errors";
      if truthy errors then
        e ← ApiError h status;
        let '(l, h) := alloc h e in Some (Ref l, h)
      else Some (err, h)
    else Some (err, h).

(** The arrow function [(err, metadata, apiResponse) => ...], lines 462-478. *)
Definition onMetadata (callback : value) (reply : list value) (h : heap) : prog :=
  let err := arg 0 reply in
  let metadata := arg 1 reply in
  let apiResponse := arg 2 reply in
  or_throw h (
    '(err, h) ← status_error h err apiResponse;
    if truthy err then Some (Invoke callback [err], h)
    else
      status ← get h metadata "status";
      state ← get h status "state";
      if negb (strict_eq_str state "DONE") then Some (Invoke callback [], h)
      else Some (Invoke callback [Null; metadata], h)).

(** [poll_(callback)], lines 461-479. *)
Definition poll_ (this : t) (callback : value) (h : heap) : prog :=
  Perform GetMetadata h (onMetadata callback).

End Collaborators.

End Job.

(** ** Vocabulary of the properties *)

Module Spec.
Import Js Job.

(** The options [getQueryResults] works from once [is.fn(options)] has been
    dealt with: those of [{}] when it was called with the callback first. *)
Definition requested (h : heap) (options : value) : gmap string value :=
  if is_fn h options then ∅ else own h options.

(** The callback it answers to. *)
Definition the_callback (h : heap) (options callback : value) : value :=
  if is_fn h options then options else callback.

(** Reading [name] off a request whose [key] is defaulted to [dflt]: the
    request's own value unless that is [undefined]. *)
Definition defaulted (key : string) (dflt : value)
    (req : gmap string value) (name : string) : value :=
  let v := prop req name in
  if is_undefined v then (if String.eqb name key then dflt else Undefined)
  else v.

(** The same request read with [key] set to [v]. *)
Definition with_prop (key : string) (v : value)
    (reads : string → value) (name : string) : value :=
  if String.eqb name key then v else reads name.

(** [v] is an object that did not exist in store [h] and that reads, in
    store [h'], property for property as [reads]. *)
Definition fresh_object (h h' : heap) (v : value) (reads : string → value) : Prop :=
  ∃ l, v = Ref l ∧ h !! l = None ∧ ∀ name, get h' v name = Some (reads name).

(** The three outcomes of the cursor classification, each one the branch
    taken for a response with the given [jobComplete] and [pageToken]. *)
Definition retry_same (jobComplete : value) (request : string → value)
    (h h' : heap) (cursor : value) : Prop :=
  strict_eq_false jobComplete = true ∧ fresh_object h h' cursor request.

Definition next_page (jobComplete pageToken : value) (request : string → value)
    (h h' : heap) (cursor : value) : Prop :=
  strict_eq_false jobComplete = false ∧ truthy pageToken = true ∧
  fresh_object h h' cursor (with_prop "pageToken" pageToken request).

Definition exhausted (jobComplete pageToken cursor : value) : Prop :=
  strict_eq_false jobComplete = false ∧ truthy pageToken = false ∧ cursor = Null.

(** Two values read the same on every property. *)
Definition same_properties (h : heap) (v : value) (h' : heap) (v' : value) : Prop :=
  ∀ name, get h v name = get h' v' name.

(** The three ways [poll_] calls back (lines 451-456). *)
Definition failure (callback err : value) : outcome := Invoke callback [err].
Definition incomplete (callback : value) : outcome := Invoke callback [].
Definition success (callback metadata : value) : outcome :=
  Invoke callback [Null; metadata].

(** A poll response carries [status.errors]. *)
Definition carries_errors (h : heap) (apiResponse : value) : bool :=
  match get h apiResponse "status" with
  | Some status =>
      truthy status &&
      match get h status "errors" with Some e => truthy e | None => false end
  | None => false
  end.

End Spec.

(** ** Concrete jobs, stores and collaborators *)

Module Example.
Import Js Job.

(** A job created with a location, and one created without. *)
Definition job_eu : t := Make "job-1" (Str "EU").
Definition job_plain : t := Make "job-1" Undefined.

(** A store with three option objects, a callback, three query responses
    and two job resources. *)
Definition store : heap :=
  {[ 1 := literal {["autoPaginate" := Bool false]};
     2 := Object Function ∅;
     3 := literal {["jobComplete" := Bool false]};
     4 := literal {["autoPaginate" := Bool true]};
     5 := literal {["jobComplete" := Bool true; "pageToken" := Str "next"]};
     6 := literal {["state" := Str "DONE"; "errors" := Arr [Str "quota"]]};
     7 := literal {["status" := Ref 6]};
     8 := literal {["jobComplete" := Bool true;
                    "schema" := Arr [Str "name"]; "rows" := Arr [Str "a"]]};
     9 := literal {["location" := Str "asia"; "maxResults" := Num 10]};
     10 := literal {["state" := Str "RUNNING"]};
     11 := literal {["status" := Ref 10]} ]}.

(** A decoder that hands the raw rows back, and an error object that keeps
    the [errors] of its body. *)
Definition merge_id (h : heap) (schema rows : value) : option value := Some rows.

Definition api_error (h : heap) (body : value) : object :=
  literal {["errors" := prop (own h body) "errors"]}.

(** A constructor in the manner of the library's, which reads [message]
    off every element of the [errors] of its body: it raises at a list with
    a [null] or [undefined] element, and builds [api_error] otherwise. *)
Definition new_api_error (h : heap) (body : value) : option object :=
  match prop (own h body) "errors" with
  | Arr elems => if existsb is_nullish elems then None else Some (api_error h body)
  | _ => Some (api_error h body)
  end.

(** Collaborators that answer every call the same way and leave the store
    alone. *)
Definition answering (reply : list value) : world := λ _ h, (reply, h).

End Example.

(** ** Reading a method body, and three more job resources *)

Module Edge.
Import Js Job.

(** The function a method body handed to its collaborator. *)
Definition continuation_of (p : prog) : list value → heap → prog :=
  match p with
  | Perform _ _ k => k
  | Ret _ _ => λ _ _, p
  end.

(** A callback and a running job whose [status.errors] is [[]]. *)
Definition store_empty_errors : heap :=
  {[ 1 := Object Function ∅;
     2 := literal {["state" := Str "RUNNING"; "errors" := Arr []]};
     3 := literal {["status" := Ref 2]} ]}.

(** A callback and a job that is done with the error list [[null]]. *)
Definition store_null_error : heap :=
  {[ 1 := Object Function ∅;
     2 := literal {["state" := Str "DONE"; "errors" := Arr [Null]]};
     3 := literal {["status" := Ref 2]} ]}.

(** A callback and a job that is done, without errors. *)
Definition store_done : heap :=
  {[ 1 := Object Function ∅;
     2 := literal {["state" := Str "DONE"]};
     3 := literal {["status" := Ref 2]} ]}.

End Edge.

(** ** Facts about the object store *)

Module JsFacts.
Import Js.

Lemma prop_defined m name : prop (defined m) name = prop m name.
Proof.
  unfold prop, defined. rewrite map_lookup_filter.
  destruct (m !! name) as [v|] eqn:E; simpl; [|done].
  case_guard as Hv; simpl in *; [done|]. by destruct v.
Qed.

Lemma prop_assign src tgt name :
  prop (assign src tgt) name =
  if is_undefined (prop src name) then prop tgt name else prop src name.
Proof.
  rewrite <- (prop_defined src). unfold prop at 1 2 4, assign.
  rewrite lookup_union.
  destruct (defined src !! name) as [v|] eqn:E; simpl.
  - apply map_lookup_filter_Some in E as [_ Hv]. simpl in Hv. rewrite Hv.
    by destruct (tgt !! name).
  - by rewrite (left_id_L None _).
Qed.

Lemma alloc_spec h o :
  alloc h o = (fresh (dom h), <[fresh (dom h) := o]> h) ∧ h !! fresh (dom h) = None.
Proof. split; [done|]. apply not_elem_of_dom, is_fresh. Qed.

Lemma own_agree h h' l : h' !! l = h !! l → own h' (Ref l) = own h (Ref l).
Proof. simpl. by intros ->. Qed.

Lemma extend1_other target h source l :
  l ≠ target → extend1 target h source !! l = h !! l.
Proof.
  intros Hne. unfold extend1. destruct (is_nullish source); [done|].
  destruct (h !! target) as [[k m]|]; [|done]. by rewrite lookup_insert_ne.
Qed.

Lemma extend1_target target h source k m :
  h !! target = Some (Object k m) →
  ∃ m', extend1 target h source !! target = Some (Object k m') ∧
        ∀ name, prop m' name =
                if is_undefined (prop (own h source) name) then prop m name
                else prop (own h source) name.
Proof.
  intros Ht. unfold extend1. destruct (is_nullish source) eqn:En.
  - exists m. split; [done|]. intros name.
    by destruct source; try discriminate.
  - rewrite Ht, lookup_insert_eq. eexists. split; [done|]. apply prop_assign.
Qed.

Lemma extend_other target h sources l :
  l ≠ target → extend h target sources !! l = h !! l.
Proof.
  intros Hne. unfold extend. revert h.
  induction sources as [|s ss IH]; intros h; simpl; [done|].
  by rewrite IH, extend1_other.
Qed.


Lemma is_undefined_true v : is_undefined v = true → v = Undefined.
Proof. by destruct v. Qed.

Lemma extend1_reads target h source k m name :
  h !! target = Some (Object k m) →
  get (extend1 target h source) (Ref target) name =
  Some (if is_undefined (prop (own h source) name) then prop m name
        else prop (own h source) name).
Proof.
  intros Ht. destruct (extend1_target target h source k m Ht) as (m' & Hm' & Hp).
  simpl. by rewrite Hm', <- Hp.
Qed.

Lemma ref_cases (source : value) l : source = Ref l ∨ source ≠ Ref l.
Proof.
  destruct source as [| | | | | |l0]; try (by right).
  destruct (decide (l0 = l)) as [->|Hne]; [by left|right; congruence].
Qed.

(** The sources seen from a store where a fresh literal has been added. *)
Lemma own_insert_ne h l o source :
  source ≠ Ref l → own (<[l := o]> h) source = own h source.
Proof.
  intros Hne. destruct source as [| | | | | |l0]; try done.
  simpl. rewrite lookup_insert_ne; [done|congruence].
Qed.

Lemma own_insert_eq h l m : own (<[l := literal m]> h) (Ref l) = m.
Proof. simpl. by rewrite lookup_insert_eq. Qed.

Lemma own_dangling h l name : h !! l = None → prop (own h (Ref l)) name = Undefined.
Proof. intros Hl. simpl. by rewrite Hl. Qed.

(** [extend(literal, source)] on a literal written at the call site. *)
Lemma extend_literal_reads h m0 source name :
  let l := fresh (dom h) in
  get (extend (<[l := literal m0]> h) l [source]) (Ref l) name =
  Some (if is_undefined (prop (own h source) name) then prop m0 name
        else prop (own h source) name).
Proof.
  intros l. assert (Hl : h !! l = None) by apply alloc_spec, (literal ∅).
  unfold extend; cbn [foldl].
  erewrite extend1_reads by apply lookup_insert_eq.
  destruct (ref_cases source l) as [->|Hne].
  - rewrite own_insert_eq, own_dangling by done. simpl.
    by destruct (is_undefined (prop m0 name)).
  - by rewrite own_insert_ne.
Qed.

(** [extend({}, source, literal)] with both literals written at the call
    site. *)
Lemma extend_two_reads h source m1 name :
  let l := fresh (dom h) in
  let h1 := <[l := literal ∅]> h in
  let l' := fresh (dom h1) in
  get (extend (<[l' := literal m1]> h1) l [source; Ref l']) (Ref l) name =
  Some (if is_undefined (prop m1 name) then prop (own h source) name
        else prop m1 name).
Proof.
  intros l h1 l'.
  assert (Hl : h !! l = None) by apply alloc_spec, (literal ∅).
  assert (Hl' : h1 !! l' = None) by apply alloc_spec, (literal ∅).
  assert (Hne : l ≠ l').
  { intros Heq. rewrite <- Heq in Hl'. unfold h1 in Hl'.
    by rewrite lookup_insert_eq in Hl'. }
  assert (Hl'h : h !! l' = None).
  { unfold h1 in Hl'. by rewrite lookup_insert_ne in Hl'. }
  set (h2 := <[l' := literal m1]> h1).
  assert (Ht : h2 !! l = Some (literal ∅)).
  { unfold h2, h1. rewrite lookup_insert_ne by done. apply lookup_insert_eq. }
  unfold extend; cbn [foldl].
  destruct (extend1_target l h2 source Plain ∅ Ht) as (m' & Hm' & Hp).
  erewrite extend1_reads by exact Hm'.
  assert (Hown : own (extend1 l h2 source) (Ref l') = m1).
  { simpl. rewrite extend1_other by done. unfold h2. by rewrite lookup_insert_eq. }
  rewrite Hown. destruct (is_undefined (prop m1 name)) eqn:Eu; [|done].
  f_equal. rewrite Hp. unfold h2.
  destruct (ref_cases source l') as [->|Hne'].
  - rewrite own_insert_eq, own_dangling by done. rewrite Eu.
    by apply is_undefined_true in Eu.
  - rewrite own_insert_ne by done. unfold h1.
    destruct (ref_cases source l) as [->|Hne''].
    + rewrite own_insert_eq. by rewrite own_dangling.
    + rewrite own_insert_ne by done.
      destruct (is_undefined (prop (own h source) name)) eqn:Eu'; [|done].
      by apply is_undefined_true in Eu'.
Qed.

End JsFacts.

(** ** Facts about the methods *)

Module JobFacts.
Import Js Job Spec JsFacts.

Lemma prop_singleton key (v : value) name :
  prop {[key := v]} name = if String.eqb name key then v else Undefined.
Proof.
  unfold prop. destruct (String.eqb_spec name key) as [->|Hne].
  - by rewrite lookup_singleton_eq.
  - by rewrite lookup_singleton_ne.
Qed.

(** A literal extended by one source reads as the source with a default. *)
Lemma extend_default_reads h key dflt source name :
  let l := fresh (dom h) in
  get (extend (<[l := literal {[key := dflt]}]> h) l [source]) (Ref l) name =
  Some (defaulted key dflt (own h source) name).
Proof.
  intros l. unfold l. rewrite extend_literal_reads.
  unfold defaulted. by rewrite prop_singleton.
Qed.

(** Allocating a literal and extending it leaves every other object alone. *)
Lemma extend_alloc_frame h o sources l' o' :
  h !! l' = Some o' →
  extend (<[fresh (dom h) := o]> h) (fresh (dom h)) sources !! l' = Some o'.
Proof.
  intros Hl'. assert (Hl : h !! fresh (dom h) = None) by apply alloc_spec, o.
  assert (l' ≠ fresh (dom h)) by congruence.
  rewrite extend_other by done. by rewrite lookup_insert_ne.
Qed.

(** A handle built by the constructor has a location exactly when its
    location is truthy, which is what [cancel] tests. *)
Lemma new_has_location h id options :
  truthy (location (new h id options)) =
  negb (is_undefined (location (new h id options))).
Proof.
  unfold new. cbn [location]. destruct (truthy options); [|done].
  destruct (get h options "location") as [v|]; [|done].
  by destruct (truthy v) eqn:Ev; [destruct v|].
Qed.

Section Collaborators.
Variable mergeSchemaWithRows_ : heap → value → value → option value.
Variable ApiError : heap → value → option object.

Local Abbreviation getQueryResults := (getQueryResults mergeSchemaWithRows_).
Local Abbreviation onQueryResults := (onQueryResults mergeSchemaWithRows_).

(** What [getQueryResults] does before the collaborator answers. *)
Lemma getQueryResults_shape this options callback h :
  ∃ lq h1,
    getQueryResults this options callback h =
    Perform (BigQueryRequest (ReqOpts None ("/queries/" +:+ id this) (Ref lq))) h1
            (onQueryResults (Ref lq) (the_callback h options callback)) ∧
    h !! lq = None ∧
    (∀ l o, h !! l = Some o → h1 !! l = Some o) ∧
    (∀ name, get h1 (Ref lq) name =
             Some (defaulted "location" (location this) (requested h options) name)).
Proof.
  unfold Job.getQueryResults, requested, the_callback, alloc.
  destruct (is_fn h options) eqn:Efn.
  - set (l0 := fresh (dom h)). set (h0 := <[l0 := literal ∅]> h).
    assert (Hl0 : h !! l0 = None) by apply alloc_spec, (literal ∅).
    assert (Hl : h0 !! fresh (dom h0) = None) by apply alloc_spec, (literal ∅).
    eexists _, _. split; [reflexivity|]. split; [|split].
    + by apply lookup_insert_None in Hl as [? _].
    + intros l o Hlo. apply extend_alloc_frame. unfold h0.
      rewrite lookup_insert_ne; [done|congruence].
    + intros name. rewrite extend_default_reads. do 2 f_equal.
      unfold h0. apply own_insert_eq.
  - eexists _, _. split; [reflexivity|]. split; [|split].
    + apply alloc_spec, (literal ∅).
    + intros l o Hlo. by apply extend_alloc_frame.
    + intros name. apply extend_default_reads.
Qed.

(** The cursor of lines 423-432, for a response that can be read. *)
Lemma nextQuery_of_spec h options resp jobComplete pageToken :
  get h resp "jobComplete" = Some jobComplete →
  get h resp "pageToken" = Some pageToken →
  ∃ cursor h',
    nextQuery_of h options resp = Some (cursor, h') ∧
    (∀ l o, h !! l = Some o → h' !! l = Some o) ∧
    (∀ l, cursor = Ref l → h !! l = None) ∧
    let request := prop (own h options) in
    (strict_eq_false jobComplete = true → retry_same jobComplete request h h' cursor) ∧
    (strict_eq_false jobComplete = false → truthy pageToken = true →
     next_page jobComplete pageToken request h h' cursor) ∧
    (strict_eq_false jobComplete = false → truthy pageToken = false →
     exhausted jobComplete pageToken cursor).
Proof.
  intros Hjc Hpt. unfold nextQuery_of. rewrite Hjc, Hpt. simpl.
  unfold alloc.
  destruct (strict_eq_false jobComplete) eqn:Ejc; [|destruct (truthy pageToken) eqn:Ept].
  - eexists _, _. split; [reflexivity|]. split; [|split].
    + intros l o Hlo. by apply extend_alloc_frame.
    + intros l [= <-]. apply alloc_spec, (literal ∅).
    + split; [|split]; try discriminate. intros _. split; [done|].
      eexists. split; [done|]. split; [apply alloc_spec, (literal ∅)|].
      intros name. rewrite extend_literal_reads.
      destruct (is_undefined (prop (own h options) name)) eqn:Eu; [|done].
      by apply is_undefined_true in Eu as ->.
  - set (l := fresh (dom h)). set (h1 := <[l := literal ∅]> h).
    set (l' := fresh (dom h1)).
    assert (Hl : h !! l = None) by apply alloc_spec, (literal ∅).
    assert (Hl' : h1 !! l' = None) by apply alloc_spec, (literal ∅).
    assert (Hne : l ≠ l').
    { intros Heq. rewrite <- Heq in Hl'. unfold h1 in Hl'.
      by rewrite lookup_insert_eq in Hl'. }
    eexists _, _. split; [reflexivity|]. split; [|split].
    + intros l0 o Hlo. rewrite extend_other by congruence.
      unfold h1 in Hl'. rewrite lookup_insert_ne in Hl' by done.
      rewrite lookup_insert_ne by congruence.
      unfold h1. rewrite lookup_insert_ne by congruence. done.
    + by intros l0 [= <-].
    + split; [|split]; try discriminate. intros _ _. split; [done|]. split; [done|].
      exists l. split; [done|]. split; [done|].
      intros name. unfold l', h1, l. rewrite extend_two_reads.
      unfold with_prop. rewrite prop_singleton.
      destruct (String.eqb name "pageToken"); [|done].
      by destruct pageToken.
  - eexists _, _. split; [reflexivity|]. split; [done|]. split; [done|].
    split; [|split]; try discriminate. by intros _ _.
Qed.

End Collaborators.

End JobFacts.

(** ** The properties of the job handle *)

Module Claims.
Import Js Job Spec JsFacts JobFacts.

Lemma get_readable h v name name' x :
  get h v name = Some x → ∃ y, get h v name' = Some y.
Proof. destruct v; simpl; try discriminate; eauto. Qed.

Lemma fresh_object_ext h h' v (f g : string → value) :
  (∀ name, f name = g name) → fresh_object h h' v f → fresh_object h h' v g.
Proof.
  intros Hfg (l & -> & Hl & Hr). exists l. split; [done|]. split; [done|].
  intros name. by rewrite Hr, Hfg.
Qed.

Lemma run_perform_ret w c h k :
  (∀ reply h', ∃ o h'', k reply h' = Ret o h'') →
  (run w (Perform c h k)).1.1 = [c].
Proof.
  intros Hk. simpl. destruct (w c h) as [reply h'].
  by destruct (Hk reply h') as (o & h'' & ->).
Qed.

Section Collaborators.
Variable mergeSchemaWithRows_ : heap → value → value → option value.
Variable ApiError : heap → value → option object.

Local Abbreviation getQueryResults := (getQueryResults mergeSchemaWithRows_).
Local Abbreviation onQueryResults := (onQueryResults mergeSchemaWithRows_).
Local Abbreviation rows_of := (rows_of mergeSchemaWithRows_).

Lemma onQueryResults_ret options callback reply h :
  ∃ o h', onQueryResults options callback reply h = Ret o h'.
Proof.
  unfold Job.onQueryResults. destruct (truthy (arg 0 reply)); [by eexists _, _|].
  unfold or_throw.
  destruct (rows_of _ _) as [rows|]; simpl; [|by eexists _, _].
  destruct (nextQuery_of _ _ _) as [[c h']|]; simpl; by eexists _, _.
Qed.

(** The answer to a successful fetch, once rows and cursor are known. *)
Lemma onQueryResults_ok options callback reply h rows cursor h' :
  truthy (arg 0 reply) = false →
  rows_of h (arg 1 reply) = Some rows →
  nextQuery_of h options (arg 1 reply) = Some (cursor, h') →
  onQueryResults options callback reply h =
  Ret (Invoke callback [Null; rows; cursor; arg 1 reply]) h'.
Proof.
  intros Herr Hrows Hnext. unfold Job.onQueryResults.
  rewrite Herr. fold rows_of. by rewrite Hrows, Hnext.
Qed.

(** The cursor handed to the callback after a successful fetch, branch by
    branch, read against the location-defaulted input request. *)
Lemma cursor_of_response this options callback h :
  ∃ r h1 k,
    getQueryResults this options callback h = Perform (BigQueryRequest r) h1 k ∧
    ∀ reply h2 rows jobComplete pageToken,
      truthy (arg 0 reply) = false →
      rows_of h2 (arg 1 reply) = Some rows →
      get h2 (arg 1 reply) "jobComplete" = Some jobComplete →
      get h2 (arg 1 reply) "pageToken" = Some pageToken →
      own h2 (qs r) = own h1 (qs r) →
      ∃ cursor h3,
        k reply h2 =
        Ret (Invoke (the_callback h options callback)
                    [Null; rows; cursor; arg 1 reply]) h3 ∧
        let request := defaulted "location" (location this) (requested h options) in
        (strict_eq_false jobComplete = true →
         retry_same jobComplete request h2 h3 cursor) ∧
        (strict_eq_false jobComplete = false → truthy pageToken = true →
         next_page jobComplete pageToken request h2 h3 cursor) ∧
        (strict_eq_false jobComplete = false → truthy pageToken = false →
         exhausted jobComplete pageToken cursor).
Proof.
  destruct (getQueryResults_shape mergeSchemaWithRows_ this options callback h)
    as (lq & h1 & Heq & _ & _ & Hsent).
  eexists _, h1, _. split; [exact Heq|].
  intros reply h2 rows jc pt Herr Hrows Hjc Hpt Hsame. cbn [qs] in Hsame.
  destruct (nextQuery_of_spec h2 (Ref lq) (arg 1 reply) jc pt Hjc Hpt)
    as (cursor & h3 & Hnext & _ & _ & Hretry & Hnextp & Hnone).
  exists cursor, h3. split; [by apply onQueryResults_ok|].
  assert (Hreq : ∀ name, prop (own h2 (Ref lq)) name =
                         defaulted "location" (location this) (requested h options) name).
  { intros name. specialize (Hsent name). rewrite Hsame.
    simpl in Hsent. by injection Hsent. }
  cbv zeta. split; [|split; [|exact Hnone]].
  - intros E. destruct (Hretry E) as [? Hf]. split; [done|].
    by apply (fresh_object_ext _ _ _ _ _ Hreq).
  - intros E E'. destruct (Hnextp E E') as (? & ? & Hf). split; [done|]. split; [done|].
    eapply fresh_object_ext; [|exact Hf].
    intros name. unfold with_prop. by rewrite Hreq.
Qed.

(** C1.  Once the results fetch has answered without an error, with a
    response whose rows decode, the cursor handed to the callback is
    classified in priority order: a response with [jobComplete === false]
    gives a fresh object that reads, property for property, as the
    location-defaulted input request; otherwise a response with a (truthy)
    [pageToken] gives a fresh object that reads as that request with
    [pageToken] set to the token; otherwise the cursor is [null].  Exactly
    one of the three outcomes holds. *)
Theorem cursor_classification this options callback h :
  ∃ r h1 k,
    getQueryResults this options callback h = Perform (BigQueryRequest r) h1 k ∧
    ∀ reply h2 rows jobComplete pageToken,
      truthy (arg 0 reply) = false →
      rows_of h2 (arg 1 reply) = Some rows →
      get h2 (arg 1 reply) "jobComplete" = Some jobComplete →
      get h2 (arg 1 reply) "pageToken" = Some pageToken →
      own h2 (qs r) = own h1 (qs r) →
      ∃ cursor h3,
        k reply h2 =
        Ret (Invoke (the_callback h options callback)
                    [Null; rows; cursor; arg 1 reply]) h3 ∧
        let request := defaulted "location" (location this) (requested h options) in
        let retry := retry_same jobComplete request h2 h3 cursor in
        let next := next_page jobComplete pageToken request h2 h3 cursor in
        let none := exhausted jobComplete pageToken cursor in
        (strict_eq_false jobComplete = true → retry) ∧
        (strict_eq_false jobComplete = false → truthy pageToken = true → next) ∧
        (strict_eq_false jobComplete = false → truthy pageToken = false → none) ∧
        ((retry ∧ ¬ next ∧ ¬ none) ∨ (¬ retry ∧ next ∧ ¬ none) ∨
         (¬ retry ∧ ¬ next ∧ none)).
Proof.
  destruct (cursor_of_response this options callback h) as (r & h1 & k & Heq & Hk).
  exists r, h1, k. split; [exact Heq|].
  intros reply h2 rows jc pt Herr Hrows Hjc Hpt Hsame.
  destruct (Hk reply h2 rows jc pt Herr Hrows Hjc Hpt Hsame)
    as (cursor & h3 & Hret & Hr & Hn & Hnone).
  exists cursor, h3. split; [exact Hret|]. cbv zeta in *.
  split; [exact Hr|]. split; [exact Hn|]. split; [exact Hnone|].
  unfold retry_same, next_page, exhausted in *.
  destruct (strict_eq_false jc) eqn:Ejc; [|destruct (truthy pt) eqn:Ept].
  - left. split; [by apply Hr|]. split; intros [? _]; discriminate.
  - right; left. split; [intros [? _]; discriminate|]. split; [by apply Hn|].
    intros (_ & ? & _); discriminate.
  - right; right. split; [intros [? _]; discriminate|].
    split; [intros (_ & ? & _); discriminate|]. by apply Hnone.
Qed.

(** C5.  Once the results fetch has answered without an error, the rows
    handed to the callback are the result of the schema/row merge when the
    response has both a (truthy) [schema] and (truthy) [rows] (and the call
    ends by the merge's exception when the merge throws); when either is
    absent they are an empty array, with a [null] error. *)
Theorem rows_decoded_when_both_present this options callback h :
  ∃ r h1 k,
    getQueryResults this options callback h = Perform (BigQueryRequest r) h1 k ∧
    ∀ reply h2 schema rows,
      truthy (arg 0 reply) = false →
      get h2 (arg 1 reply) "schema" = Some schema →
      get h2 (arg 1 reply) "rows" = Some rows →
      if truthy schema && truthy rows then
        match mergeSchemaWithRows_ h2 schema rows with
        | Some decoded =>
            ∃ cursor h3,
              k reply h2 =
              Ret (Invoke (the_callback h options callback)
                          [Null; decoded; cursor; arg 1 reply]) h3
        | None => k reply h2 = Ret Throw h2
        end
      else
        ∃ cursor h3,
          k reply h2 =
          Ret (Invoke (the_callback h options callback)
                      [Null; Arr []; cursor; arg 1 reply]) h3.
Proof.
  destruct (getQueryResults_shape mergeSchemaWithRows_ this options callback h)
    as (lq & h1 & Heq & _).
  eexists _, h1, _. split; [exact Heq|].
  intros reply h2 schema rows Herr Hschema Hrows.
  destruct (get_readable _ _ _ "jobComplete" _ Hschema) as [jc Hjc].
  destruct (get_readable _ _ _ "pageToken" _ Hschema) as [pt Hpt].
  destruct (nextQuery_of_spec h2 (Ref lq) (arg 1 reply) jc pt Hjc Hpt)
    as (cursor & h3 & Hnext & _).
  assert (Hro : rows_of h2 (arg 1 reply) =
                if truthy schema && truthy rows
                then mergeSchemaWithRows_ h2 schema rows else Some (Arr [])).
  { unfold Job.rows_of. rewrite Hschema, Hrows. simpl.
    by destruct (truthy schema), (truthy rows). }
  destruct (truthy schema && truthy rows).
  - destruct (mergeSchemaWithRows_ h2 schema rows) as [decoded|] eqn:Em.
    + exists cursor, h3. by apply onQueryResults_ok.
    + unfold Job.onQueryResults. rewrite Herr. fold rows_of. by rewrite Hro.
  - exists cursor, h3. by apply onQueryResults_ok.
Qed.

(** C6.  When the results fetch answers with an error, that very value is
    handed to the callback, with [null] for the rows and [null] for the
    cursor; the store is left as it is and no further call is made: the
    request is the only one issued. *)
Theorem getQueryResults_error_verbatim this options callback h :
  ∃ r h1 k,
    getQueryResults this options callback h = Perform (BigQueryRequest r) h1 k ∧
    (∀ w, (run w (getQueryResults this options callback h)).1.1 = [BigQueryRequest r]) ∧
    ∀ reply h2,
      truthy (arg 0 reply) = true →
      k reply h2 =
      Ret (Invoke (the_callback h options callback)
                  [arg 0 reply; Null; Null; arg 1 reply]) h2.
Proof.
  destruct (getQueryResults_shape mergeSchemaWithRows_ this options callback h)
    as (lq & h1 & Heq & _).
  eexists _, h1, _. split; [exact Heq|]. split.
  - intros w. rewrite Heq. apply run_perform_ret. intros. apply onQueryResults_ret.
  - intros reply h2 Herr. unfold Job.onQueryResults. by rewrite Herr.
Qed.

(** C7.  Every call of [getQueryResults] issues exactly one request, to
    [/queries/<id>]; its query parameters are a fresh object that reads as
    the input request, except that [location] reads the job handle's
    location exactly when the input request leaves it [undefined]. *)
Theorem getQueryResults_one_request this options callback h :
  ∃ r h1 k,
    getQueryResults this options callback h = Perform (BigQueryRequest r) h1 k ∧
    (∀ w, (run w (getQueryResults this options callback h)).1.1 = [BigQueryRequest r]) ∧
    uri r = "/queries/" +:+ id this ∧
    let request := prop (requested h options) in
    get h1 (qs r) "location" =
    Some (if is_undefined (request "location") then location this
          else request "location") ∧
    ∀ name, get h1 (qs r) name =
            Some (if String.eqb name "location" then
                    if is_undefined (request "location") then location this
                    else request "location"
                  else request name).
Proof.
  destruct (getQueryResults_shape mergeSchemaWithRows_ this options callback h)
    as (lq & h1 & Heq & _ & _ & Hreads).
  eexists _, h1, _. split; [exact Heq|]. split; [|split; [done|]].
  { intros w. rewrite Heq. apply run_perform_ret. intros. apply onQueryResults_ret. }
  assert (Hall : ∀ name, get h1 (Ref lq) name =
            Some (if String.eqb name "location" then
                    if is_undefined (prop (requested h options) "location")
                    then location this
                    else prop (requested h options) "location"
                  else prop (requested h options) name)).
  { intros name. rewrite Hreads. unfold defaulted. f_equal.
    destruct (String.eqb_spec name "location") as [->|Hne]; [done|].
    destruct (is_undefined (prop (requested h options) name)) eqn:Eu; [|done].
    by apply is_undefined_true in Eu. }
  split; [apply (Hall "location")|exact Hall].
Qed.

Lemma nextQuery_of_frame h options resp cursor h' :
  nextQuery_of h options resp = Some (cursor, h') →
  (∀ l o, h !! l = Some o → h' !! l = Some o) ∧
  (∀ l, cursor = Ref l → h !! l = None).
Proof.
  intros Hnext.
  destruct (get h resp "jobComplete") as [jc|] eqn:Hjc.
  - destruct (get_readable _ _ _ "pageToken" _ Hjc) as [pt Hpt].
    destruct (nextQuery_of_spec h options resp jc pt Hjc Hpt)
      as (c & h'' & Heq & Hframe & Hfresh & _).
    rewrite Heq in Hnext. by injection Hnext as <- <-.
  - unfold nextQuery_of in Hnext. by rewrite Hjc in Hnext.
Qed.

(** C3 (amended).  For a request object with [autoPaginate] false and a
    response with [jobComplete === false], the cursor is not [null]: it is a
    fresh object that reads as the request with [location] defaulted from the job handle (so
    [autoPaginate] still reads false); it reads exactly as the caller's
    request when the job handle has no location or the request sets one. *)
Theorem retry_cursor_is_defaulted_request this lo callback h :
  is_fn h (Ref lo) = false →
  get h (Ref lo) "autoPaginate" = Some (Bool false) →
  ∃ r h1 k,
    getQueryResults this (Ref lo) callback h = Perform (BigQueryRequest r) h1 k ∧
    ∀ reply h2 rows,
      truthy (arg 0 reply) = false →
      rows_of h2 (arg 1 reply) = Some rows →
      get h2 (arg 1 reply) "jobComplete" = Some (Bool false) →
      own h2 (qs r) = own h1 (qs r) →
      ∃ cursor h3,
        k reply h2 = Ret (Invoke callback [Null; rows; cursor; arg 1 reply]) h3 ∧
        cursor ≠ Null ∧
        fresh_object h2 h3 cursor
          (defaulted "location" (location this) (own h (Ref lo))) ∧
        get h3 cursor "autoPaginate" = Some (Bool false) ∧
        (is_undefined (location this)
         || negb (is_undefined (prop (own h (Ref lo)) "location")) = true →
         same_properties h3 cursor h (Ref lo)).
Proof.
  intros Hfn Hauto.
  destruct (cursor_of_response this (Ref lo) callback h)
    as (r & h1 & k & Heq & Hk).
  exists r, h1, k. split; [exact Heq|].
  intros reply h2 rows Herr Hrows Hjc Hsame.
  destruct (get_readable _ _ _ "pageToken" _ Hjc) as [pt Hpt].
  destruct (Hk reply h2 rows (Bool false) pt Herr Hrows Hjc Hpt Hsame)
    as (cursor & h3 & Hret & Hretry & _).
  unfold the_callback, requested in Hret, Hretry. rewrite Hfn in Hret, Hretry.
  destruct (Hretry eq_refl) as [_ Hfresh].
  exists cursor, h3. split; [exact Hret|].
  destruct Hfresh as (lc & -> & Hlc & Hreads).
  split; [done|]. split; [|split].
  - by exists lc.
  - assert (Ha : prop (own h (Ref lo)) "autoPaginate" = Bool false)
      by (simpl in Hauto; by injection Hauto).
    rewrite Hreads. unfold defaulted. by rewrite Ha.
  - intros Hloc name. rewrite Hreads.
    change (get h (Ref lo) name) with (Some (prop (own h (Ref lo)) name)).
    f_equal. unfold defaulted.
    destruct (is_undefined (prop (own h (Ref lo)) name)) eqn:Eu; [|done].
    destruct (String.eqb_spec name "location") as [->|Hne].
    + rewrite Eu, orb_false_r in Hloc.
      apply is_undefined_true in Hloc, Eu. by rewrite Hloc, Eu.
    + by apply is_undefined_true in Eu.
Qed.

(** C10.  [getQueryResults] writes to no object that existed before the
    call: whatever the collaborator answers, an object the collaborator
    leaves alone (the caller's options object in particular) is, after the
    call, exactly what it was; the query parameters of the request and the
    cursor handed to the callback are other objects than it. *)
Theorem getQueryResults_leaves_objects_unchanged w this options callback h l o :
  h !! l = Some o →
  (∀ c h', h' !! l = Some o → (w c h').2 !! l = Some o) →
  ∃ r out h',
    run w (getQueryResults this options callback h) = ([BigQueryRequest r], out, h') ∧
    h' !! l = Some o ∧
    qs r ≠ Ref l ∧
    ∀ cb args, out = Invoke cb args → arg 2 args ≠ Ref l.
Proof.
  intros Hl Hw.
  destruct (getQueryResults_shape mergeSchemaWithRows_ this options callback h)
    as (lq & h1 & Heq & Hlq & Hframe & _).
  rewrite Heq. cbn [run].
  specialize (Hw (BigQueryRequest (ReqOpts None ("/queries/" +:+ id this) (Ref lq)))
                 h1 (Hframe _ _ Hl)).
  destruct (w _ h1) as [reply h2]. cbn [snd] in Hw.
  assert (Hqs : Ref lq ≠ Ref l) by congruence.
  unfold Job.onQueryResults. destruct (truthy (arg 0 reply)).
  { eexists _, _, _. split; [reflexivity|]. split; [done|]. split; [done|].
    by intros cb args [= _ <-]. }
  fold rows_of. destruct (rows_of h2 (arg 1 reply)) as [rows|]; cbn.
  2: { eexists _, _, _. split; [reflexivity|]. split; [done|]. by split. }
  destruct (nextQuery_of h2 (Ref lq) (arg 1 reply)) as [[cursor h3]|] eqn:Hnext; cbn.
  2: { eexists _, _, _. split; [reflexivity|]. split; [done|]. by split. }
  destruct (nextQuery_of_frame _ _ _ _ _ Hnext) as [Hframe' Hfresh].
  eexists _, _, _. split; [reflexivity|]. split; [by apply Hframe'|]. split; [done|].
  intros cb args [= _ <-]. cbn. intros Hc. apply Hfresh in Hc. congruence.
Qed.

Local Abbreviation poll_ := (poll_ ApiError).
Local Abbreviation onMetadata := (onMetadata ApiError).
Local Abbreviation status_error := (status_error ApiError).

Lemma status_error_failed h err apiResponse :
  truthy err = true → status_error h err apiResponse = Some (err, h).
Proof. intros Herr. unfold Job.status_error. by rewrite Herr. Qed.

Lemma status_error_fetched h err apiResponse status :
  truthy err = false →
  get h apiResponse "status" = Some status →
  status_error h err apiResponse =
  if carries_errors h apiResponse
  then (λ e, (Ref (fresh (dom h)), <[fresh (dom h) := e]> h)) <$> ApiError h status
  else Some (err, h).
Proof.
  intros Herr Hst. unfold Job.status_error, carries_errors.
  rewrite Herr, Hst. simpl.
  destruct (truthy status) eqn:Ets; [|done].
  destruct (get h status "errors") as [e|] eqn:Ee.
  - simpl. destruct (truthy e); [|done]. by destruct (ApiError h status).
  - by destruct status.
Qed.

Lemma carries_errors_status h apiResponse :
  carries_errors h apiResponse = true →
  ∃ status, get h apiResponse "status" = Some status.
Proof.
  unfold carries_errors. destruct (get h apiResponse "status"); [eauto|done].
Qed.

(** What the arrow function of [poll_] does once the fetch has answered
    without an error and the response carries [status.errors]. *)
Lemma onMetadata_errors callback reply h status :
  truthy (arg 0 reply) = false →
  get h (arg 2 reply) "status" = Some status →
  carries_errors h (arg 2 reply) = true →
  onMetadata callback reply h =
  match ApiError h status with
  | Some e => Ret (failure callback (Ref (fresh (dom h)))) (<[fresh (dom h) := e]> h)
  | None => Ret Throw h
  end.
Proof.
  intros Herr Hst Hc. unfold Job.onMetadata. fold status_error.
  rewrite (status_error_fetched _ _ _ status Herr Hst), Hc.
  by destruct (ApiError h status).
Qed.

(** C2 (amended).  Once the metadata fetch has answered without an error,
    a poll is classified by the response.  When the response carries
    [status.errors], whatever its state, the poll is a failure with the
    structured error built from the [status] payload, provided the error
    can be built; when its constructor raises, [poll_] raises and calls
    nothing back.  Otherwise the poll is incomplete when [status.state] is
    not ['DONE'], and a success with the metadata when it is.  A response
    that carries errors never gives a success nor an incomplete poll, on
    any attempt. *)
Theorem poll_classification this callback h :
  ∃ k,
    poll_ this callback h = Perform GetMetadata h k ∧
    ∀ reply h2,
      let err := arg 0 reply in
      let metadata := arg 1 reply in
      let apiResponse := arg 2 reply in
      (carries_errors h2 apiResponse = true →
       ((∃ e h3, k reply h2 = Ret (failure callback e) h3 ∧ truthy e = true) ∨
        k reply h2 = Ret Throw h2) ∧
       ∀ h3, k reply h2 ≠ Ret (success callback metadata) h3 ∧
             k reply h2 ≠ Ret (incomplete callback) h3) ∧
      (truthy err = false →
       ∀ status,
         get h2 apiResponse "status" = Some status →
         if carries_errors h2 apiResponse then
           match ApiError h2 status with
           | Some e =>
               k reply h2 =
               Ret (failure callback (Ref (fresh (dom h2))))
                   (<[fresh (dom h2) := e]> h2)
           | None => k reply h2 = Ret Throw h2
           end
         else
           ∀ mstatus state,
             get h2 metadata "status" = Some mstatus →
             get h2 mstatus "state" = Some state →
             k reply h2 =
             Ret (if strict_eq_str state "DONE" then success callback metadata
                  else incomplete callback) h2).
Proof.
  eexists. split; [reflexivity|]. intros reply h2 err metadata apiResponse.
  split.
  - intros Hc.
    assert ((∃ e h3, onMetadata callback reply h2 = Ret (failure callback e) h3 ∧
                     truthy e = true) ∨
            onMetadata callback reply h2 = Ret Throw h2) as Hk.
    { destruct (truthy err) eqn:Herr.
      - left. exists err, h2. split; [|done]. unfold Job.onMetadata.
        fold err apiResponse. fold status_error.
        rewrite status_error_failed by done. simpl. fold err. by rewrite Herr.
      - destruct (carries_errors_status _ _ Hc) as [status Hst].
        rewrite (onMetadata_errors callback reply h2 status Herr Hst Hc).
        destruct (ApiError h2 status); [left; by eexists _, _|by right]. }
    split; [exact Hk|].
    intros h3'. destruct Hk as [(e & h3 & -> & _)| ->]; split; discriminate.
  - intros Herr status Hst. destruct (carries_errors h2 apiResponse) eqn:Hc.
    + rewrite (onMetadata_errors callback reply h2 status Herr Hst Hc).
      by destruct (ApiError h2 status).
    + intros mstatus state Hms Hstate. unfold Job.onMetadata.
      fold err apiResponse metadata. fold status_error.
      rewrite (status_error_fetched _ _ _ status Herr Hst), Hc. simpl.
      rewrite Herr, Hms. simpl. rewrite Hstate. simpl.
      by destruct (strict_eq_str state "DONE").
Qed.

(** C9.  When the metadata fetch itself answers with an error, [poll_]
    hands that very value to the callback, whatever the response holds, and
    builds nothing; whenever [poll_] does build an [ApiError] (the store
    has grown), the fetch had answered without an error and the response
    carried [status.errors]. *)
Theorem poll_transport_error_passed_through this callback h :
  ∃ k,
    poll_ this callback h = Perform GetMetadata h k ∧
    (∀ reply h2,
       truthy (arg 0 reply) = true →
       k reply h2 = Ret (failure callback (arg 0 reply)) h2) ∧
    (∀ reply h2 o h3,
       k reply h2 = Ret o h3 →
       h3 ≠ h2 →
       truthy (arg 0 reply) = false ∧
       carries_errors h2 (arg 2 reply) = true ∧
       ∃ status e,
         get h2 (arg 2 reply) "status" = Some status ∧
         ApiError h2 status = Some e ∧
         o = failure callback (Ref (fresh (dom h2))) ∧
         h3 = <[fresh (dom h2) := e]> h2).
Proof.
  eexists. split; [reflexivity|]. split.
  - intros reply h2 Herr. unfold Job.onMetadata. fold status_error.
    rewrite status_error_failed by done. simpl. by rewrite Herr.
  - intros reply h2 o h3 Hk Hne.
    destruct (truthy (arg 0 reply)) eqn:Herr.
    { unfold Job.onMetadata in Hk. fold status_error in Hk.
      rewrite status_error_failed in Hk by done. simpl in Hk. rewrite Herr in Hk.
      injection Hk as _ <-. done. }
    split; [done|].
    destruct (get h2 (arg 2 reply) "status") as [status|] eqn:Hst.
    + destruct (carries_errors h2 (arg 2 reply)) eqn:Hc.
      * split; [done|]. exists status.
        rewrite (onMetadata_errors callback reply h2 status Herr Hst Hc) in Hk.
        destruct (ApiError h2 status) as [e|]; [|by injection Hk as _ <-].
        exists e. split; [done|]. split; [done|]. by injection Hk as <- <-.
      * unfold Job.onMetadata in Hk. fold status_error in Hk.
        rewrite (status_error_fetched _ _ _ status Herr Hst), Hc in Hk.
        simpl in Hk. rewrite Herr in Hk. exfalso. apply Hne.
        destruct (get h2 (arg 1 reply) "status") as [ms|]; cbn in Hk;
          [|congruence].
        destruct (get h2 ms "state") as [st|]; cbn in Hk; [|congruence].
        destruct (negb (strict_eq_str st "DONE")); cbn in Hk; congruence.
    + exfalso. apply Hne. unfold Job.onMetadata in Hk. fold status_error in Hk.
      unfold Job.status_error in Hk. rewrite Herr, Hst in Hk.
      cbn in Hk. congruence.
Qed.

End Collaborators.

(** C8.  [cancel] issues a single request, a [POST] to the job's [/cancel],
    whose query parameters are a fresh [{location}] object exactly when the
    job handle has a (truthy) location and are [undefined] otherwise; the
    caller's callback is given to the collaborator and receives whatever it
    answers, in the store as it then is, and nothing else is called. *)
Theorem cancel_single_post this callback h :
  ∃ r h1 k,
    cancel this callback h = Perform (Request r) h1 k ∧
    (∀ w, (run w (cancel this callback h)).1.1 = [Request r]) ∧
    method r = Some "POST" ∧
    uri r = "/cancel" ∧
    (if truthy (location this)
     then ∃ l, qs r = Ref l ∧ h !! l = None ∧
               h1 = <[l := literal {["location" := location this]}]> h
     else qs r = Undefined ∧ h1 = h) ∧
    (∀ reply h2, k reply h2 = Ret (Invoke callback reply) h2) ∧
    (∀ w, run w (cancel this callback h) =
          ([Request r], Invoke callback (w (Request r) h1).1, (w (Request r) h1).2)).
Proof.
  unfold cancel, alloc. destruct (truthy (location this)) eqn:El.
  - eexists _, _, _. split; [reflexivity|].
    split; [intros w; cbn; by destruct (w _ _)|].
    split; [done|]. split; [done|]. split; [|split; [done|]].
    + eexists. split; [done|]. split; [|done]. apply alloc_spec, (literal ∅).
    + intros w. simpl. by destruct (w _ _).
  - eexists _, _, _. split; [reflexivity|].
    split; [intros w; cbn; by destruct (w _ _)|].
    split; [done|]. split; [done|]. split; [done|]. split; [done|].
    intros w. simpl. by destruct (w _ _).
Qed.

(** C4 (amended).  The lazy streaming entry point calls [getQueryResults]
    with a fresh options object that reads as the caller's options with
    [autoPaginate] defaulted to [false]: [autoPaginate] reads [false] when
    the caller leaves it [undefined], and reads the caller's own value when
    the caller sets one. *)
Theorem stream_defaults_autoPaginate this options callback h :
  ∃ lq h1 k,
    getQueryResultsAsStream_ this options callback h =
    Perform (GetQueryResults (Ref lq)) h1 k ∧
    h !! lq = None ∧
    get h1 (Ref lq) "autoPaginate" =
    Some (if is_undefined (prop (own h options) "autoPaginate") then Bool false
          else prop (own h options) "autoPaginate") ∧
    (∀ name, get h1 (Ref lq) name =
             Some (defaulted "autoPaginate" (Bool false) (own h options) name)) ∧
    ∀ reply h2, k reply h2 = Ret (Invoke callback reply) h2.
Proof.
  unfold getQueryResultsAsStream_, alloc.
  eexists _, _, _. split; [reflexivity|].
  split; [apply alloc_spec, (literal ∅)|]. split; [|split; [|done]].
  - by rewrite extend_default_reads.
  - intros name. apply extend_default_reads.
Qed.

(** *** The properties at concrete jobs, stores and answers *)

Section Instances.
Import Example Edge.

(** The methods run on the example store. *)
Example getQueryResults_callback_first :
  (run (answering [Null; Ref 5])
       (getQueryResults merge_id job_plain (Ref 2) Undefined store)).1 =
  ([BigQueryRequest (ReqOpts None "/queries/job-1" (Ref 13))],
   Invoke (Ref 2) [Null; Arr []; Ref 14; Ref 5]).
Proof. vm_compute. reflexivity. Qed.

Example getQueryResults_next_page_cursor :
  let '(_, _, h) := run (answering [Null; Ref 5])
                        (getQueryResults merge_id job_eu (Ref 9) (Ref 2) store) in
  fields <$> h !! 13 =
  Some {["maxResults" := Num 10; "location" := Str "asia";
         "pageToken" := Str "next"]}.
Proof. vm_compute. reflexivity. Qed.

Example cancel_with_location :
  (run (answering [Null; Ref 7]) (cancel job_eu (Ref 2) store)).1 =
  ([Request (ReqOpts (Some "POST") "/cancel" (Ref 12))], Invoke (Ref 2) [Null; Ref 7]).
Proof. vm_compute. reflexivity. Qed.

Example cancel_without_location :
  (run (answering [Null; Ref 7]) (cancel job_plain (Ref 2) store)).1 =
  ([Request (ReqOpts (Some "POST") "/cancel" Undefined)], Invoke (Ref 2) [Null; Ref 7]).
Proof. vm_compute. reflexivity. Qed.

Example poll_done_with_errors :
  (run (answering [Null; Ref 7; Ref 7]) (poll_ new_api_error job_eu (Ref 2) store)).1 =
  ([GetMetadata], failure (Ref 2) (Ref 12)).
Proof. vm_compute. reflexivity. Qed.

Example poll_running :
  (run (answering [Null; Ref 11; Ref 11]) (poll_ new_api_error job_eu (Ref 2) store)).1 =
  ([GetMetadata], incomplete (Ref 2)).
Proof. vm_compute. reflexivity. Qed.

Example new_with_location :
  new store "job-1" (Ref 9) = Make "job-1" (Str "asia") ∧
  new store "job-1" (Ref 1) = job_plain ∧
  new store "job-1" Undefined = job_plain.
Proof. vm_compute. done. Qed.

(** C3 as stated fails: for the job created in [EU], the request
    [{autoPaginate: false}] and the response [{jobComplete: false}], the
    cursor reads [location] as ["EU"], which the caller's request does not
    set. *)
Lemma retry_cursor_gains_location :
  get store (Ref 1) "autoPaginate" = Some (Bool false) ∧
  get store (Ref 3) "jobComplete" = Some (Bool false) ∧
  ∃ hf,
    run (answering [Null; Ref 3])
        (getQueryResults merge_id job_eu (Ref 1) (Ref 2) store) =
    ([BigQueryRequest (ReqOpts None "/queries/job-1" (Ref 12))],
     Invoke (Ref 2) [Null; Arr []; Ref 13; Ref 3], hf) ∧
    get hf (Ref 13) "location" = Some (Str "EU") ∧
    get store (Ref 1) "location" = Some Undefined ∧
    ¬ same_properties hf (Ref 13) store (Ref 1).
Proof.
  split; [reflexivity|]. split; [reflexivity|].
  eexists. split; [vm_compute; reflexivity|].
  split; [vm_compute; reflexivity|]. split; [reflexivity|].
  intros Hsame. specialize (Hsame "location"). vm_compute in Hsame. discriminate.
Qed.

(** C4 as stated fails: for the caller's options [{autoPaginate: true}],
    the options of the per-page call read [autoPaginate] as [true]. *)
Lemma stream_keeps_autoPaginate_true :
  get store (Ref 4) "autoPaginate" = Some (Bool true) ∧
  ∃ lq h1 k,
    getQueryResultsAsStream_ job_plain (Ref 4) (Ref 2) store =
    Perform (GetQueryResults (Ref lq)) h1 k ∧
    get h1 (Ref lq) "autoPaginate" = Some (Bool true) ∧
    get h1 (Ref lq) "autoPaginate" ≠ Some (Bool false).
Proof.
  split; [reflexivity|]. eexists _, _, _. split; [reflexivity|].
  split; [vm_compute; reflexivity|]. vm_compute. discriminate.
Qed.

(** C1 at a response [{jobComplete: true, pageToken: "next"}]. *)
Lemma cursor_classification_witness :
  ∃ r h1 k cursor h3,
    getQueryResults merge_id job_eu (Ref 1) (Ref 2) store =
    Perform (BigQueryRequest r) h1 k ∧
    k [Null; Ref 5] h1 = Ret (Invoke (Ref 2) [Null; Arr []; cursor; Ref 5]) h3 ∧
    next_page (Bool true) (Str "next")
              (defaulted "location" (Str "EU") (own store (Ref 1))) h1 h3 cursor.
Proof.
  destruct (cursor_classification merge_id job_eu (Ref 1) (Ref 2) store)
    as (r & h1 & k & Heq & H).
  assert (Hh1 : store_of (getQueryResults merge_id job_eu (Ref 1) (Ref 2) store) = h1)
    by (rewrite Heq; reflexivity).
  vm_compute in Hh1.
  destruct (H [Null; Ref 5] h1 (Arr []) (Bool true) (Str "next"))
    as (cursor & h3 & Hk & _ & Hn & _).
  - reflexivity.
  - rewrite <- Hh1. (vm_compute; reflexivity).
  - rewrite <- Hh1. vm_compute. reflexivity.
  - rewrite <- Hh1. vm_compute. reflexivity.
  - reflexivity.
  - exists r, h1, k, cursor, h3. split; [exact Heq|]. split; [exact Hk|].
    apply Hn; reflexivity.
Defined.

(** C2 as stated fails: for a [DONE] response whose [status.errors] is
    [[null]] the response carries errors, yet the error cannot be built and
    the poll ends by the constructor's exception, with no callback. *)
Lemma poll_raises_when_error_cannot_be_built :
  carries_errors store_null_error (Ref 3) = true ∧
  new_api_error store_null_error (Ref 2) = None ∧
  run (answering [Null; Ref 3; Ref 3])
      (poll_ new_api_error job_eu (Ref 1) store_null_error) =
  ([GetMetadata], Throw, store_null_error) ∧
  ∀ e, (run (answering [Null; Ref 3; Ref 3])
            (poll_ new_api_error job_eu (Ref 1) store_null_error)).1.2 ≠
       failure (Ref 1) e.
Proof.
  split; [vm_compute; reflexivity|]. split; [vm_compute; reflexivity|].
  split; [vm_compute; reflexivity|]. intros e. vm_compute. discriminate.
Qed.

(** C2 (amended) at a [DONE] response that carries errors, at a [RUNNING]
    one, and at one whose error cannot be built. *)
Lemma poll_classification_witness :
  (∃ k,
     poll_ new_api_error job_eu (Ref 2) store = Perform GetMetadata store k ∧
     k [Null; Ref 7; Ref 7] store =
     Ret (failure (Ref 2) (Ref 12)) (<[12 := api_error store (Ref 6)]> store) ∧
     (∀ h3, k [Null; Ref 7; Ref 7] store ≠ Ret (success (Ref 2) (Ref 7)) h3) ∧
     k [Null; Ref 11; Ref 11] store = Ret (incomplete (Ref 2)) store) ∧
  (∃ k,
     poll_ new_api_error job_eu (Ref 1) store_null_error =
     Perform GetMetadata store_null_error k ∧
     k [Null; Ref 3; Ref 3] store_null_error = Ret Throw store_null_error).
Proof.
  split.
  - destruct (poll_classification new_api_error job_eu (Ref 2) store) as (k & Heq & H).
    destruct (H [Null; Ref 7; Ref 7] store) as [Hcarried Hdone].
    destruct Hcarried as [_ Hnever]; [vm_compute; reflexivity|].
    specialize (Hdone eq_refl (Ref 6) ltac:(vm_compute; reflexivity)).
    change (carries_errors store (arg 2 [Null; Ref 7; Ref 7])) with true in Hdone.
    change (new_api_error store (Ref 6)) with (Some (api_error store (Ref 6))) in Hdone.
    change (fresh (dom store)) with 12 in Hdone.
    destruct (H [Null; Ref 11; Ref 11] store) as [_ Hfetched].
    specialize (Hfetched eq_refl (Ref 10) ltac:(vm_compute; reflexivity)).
    change (carries_errors store (arg 2 [Null; Ref 11; Ref 11])) with false in Hfetched.
    specialize (Hfetched (Ref 10) (Str "RUNNING")
                  ltac:(vm_compute; reflexivity) ltac:(vm_compute; reflexivity)).
    exists k. split; [exact Heq|]. split; [exact Hdone|].
    split; [intros h3; apply Hnever|exact Hfetched].
  - destruct (poll_classification new_api_error job_eu (Ref 1) store_null_error)
      as (k & Heq & H).
    destruct (H [Null; Ref 3; Ref 3] store_null_error) as [_ Hraise].
    specialize (Hraise eq_refl (Ref 2) ltac:(vm_compute; reflexivity)).
    change (carries_errors store_null_error (arg 2 [Null; Ref 3; Ref 3]))
      with true in Hraise.
    change (new_api_error store_null_error (Ref 2)) with (@None object) in Hraise.
    exists k. by split.
Defined.

(** C3 (amended) at the request [{autoPaginate: false}] and the response
    [{jobComplete: false}], for the job created in [EU] and for the job
    created without a location. *)
Lemma retry_cursor_is_defaulted_request_witness :
  (∃ r h1 k cursor h3,
     getQueryResults merge_id job_eu (Ref 1) (Ref 2) store =
     Perform (BigQueryRequest r) h1 k ∧
     k [Null; Ref 3] h1 = Ret (Invoke (Ref 2) [Null; Arr []; cursor; Ref 3]) h3 ∧
     cursor ≠ Null ∧
     get h3 cursor "location" = Some (Str "EU") ∧
     get h3 cursor "autoPaginate" = Some (Bool false)) ∧
  (∃ r h1 k cursor h3,
     getQueryResults merge_id job_plain (Ref 1) (Ref 2) store =
     Perform (BigQueryRequest r) h1 k ∧
     k [Null; Ref 3] h1 = Ret (Invoke (Ref 2) [Null; Arr []; cursor; Ref 3]) h3 ∧
     same_properties h3 cursor store (Ref 1)).
Proof.
  split.
  - destruct (retry_cursor_is_defaulted_request merge_id job_eu 1 (Ref 2) store)
      as (r & h1 & k & Heq & H); [vm_compute; reflexivity|vm_compute; reflexivity|].
    assert (Hh1 : store_of (getQueryResults merge_id job_eu (Ref 1) (Ref 2) store) = h1)
      by (rewrite Heq; reflexivity).
    vm_compute in Hh1.
    destruct (H [Null; Ref 3] h1 (Arr []))
      as (cursor & h3 & Hk & Hnn & Hfresh & Hauto & _);
      [reflexivity|rewrite <- Hh1; vm_compute; reflexivity..|reflexivity|].
    exists r, h1, k, cursor, h3. split; [exact Heq|]. split; [exact Hk|].
    split; [exact Hnn|]. split; [|exact Hauto].
    destruct Hfresh as (l & _ & _ & Hreads). apply (Hreads "location").
  - destruct (retry_cursor_is_defaulted_request merge_id job_plain 1 (Ref 2) store)
      as (r & h1 & k & Heq & H); [vm_compute; reflexivity|vm_compute; reflexivity|].
    assert (Hh1 : store_of (getQueryResults merge_id job_plain (Ref 1) (Ref 2) store) = h1)
      by (rewrite Heq; reflexivity).
    vm_compute in Hh1.
    destruct (H [Null; Ref 3] h1 (Arr []))
      as (cursor & h3 & Hk & _ & _ & _ & Hsame);
      [reflexivity|rewrite <- Hh1; vm_compute; reflexivity..|reflexivity|].
    exists r, h1, k, cursor, h3. split; [exact Heq|]. split; [exact Hk|].
    apply Hsame. reflexivity.
Defined.

(** C5 at a response with schema and rows and at one with neither. *)
Lemma rows_decoded_when_both_present_witness :
  ∃ r h1 k cursor h3 cursor' h3',
    getQueryResults merge_id job_eu (Ref 9) (Ref 2) store =
    Perform (BigQueryRequest r) h1 k ∧
    k [Null; Ref 8] h1 = Ret (Invoke (Ref 2) [Null; Arr [Str "a"]; cursor; Ref 8]) h3 ∧
    k [Null; Ref 5] h1 = Ret (Invoke (Ref 2) [Null; Arr []; cursor'; Ref 5]) h3'.
Proof.
  destruct (rows_decoded_when_both_present merge_id job_eu (Ref 9) (Ref 2) store)
    as (r & h1 & k & Heq & H).
  assert (Hh1 : store_of (getQueryResults merge_id job_eu (Ref 9) (Ref 2) store) = h1)
    by (rewrite Heq; reflexivity).
  vm_compute in Hh1.
  assert (Hboth : ∃ cursor h3, k [Null; Ref 8] h1 =
            Ret (Invoke (Ref 2) [Null; Arr [Str "a"]; cursor; Ref 8]) h3).
  { apply (H [Null; Ref 8] h1 (Arr [Str "name"]) (Arr [Str "a"]));
      [reflexivity|rewrite <- Hh1; vm_compute; reflexivity..]. }
  assert (Hnone : ∃ cursor h3, k [Null; Ref 5] h1 =
            Ret (Invoke (Ref 2) [Null; Arr []; cursor; Ref 5]) h3).
  { apply (H [Null; Ref 5] h1 Undefined Undefined);
      [reflexivity|rewrite <- Hh1; vm_compute; reflexivity..]. }
  destruct Hboth as (cursor & h3 & Hk). destruct Hnone as (cursor' & h3' & Hk').
  exists r, h1, k, cursor, h3, cursor', h3'. by split.
Defined.

(** C6 at a fetch that timed out. *)
Lemma getQueryResults_error_verbatim_witness :
  ∃ r h1 k,
    getQueryResults merge_id job_eu (Ref 1) (Ref 2) store =
    Perform (BigQueryRequest r) h1 k ∧
    k [Str "ETIMEDOUT"; Undefined] h1 =
    Ret (Invoke (Ref 2) [Str "ETIMEDOUT"; Null; Null; Undefined]) h1.
Proof.
  destruct (getQueryResults_error_verbatim merge_id job_eu (Ref 1) (Ref 2) store)
    as (r & h1 & k & Heq & _ & H).
  exists r, h1, k. split; [exact Heq|]. apply (H [Str "ETIMEDOUT"; Undefined] h1).
  reflexivity.
Defined.

(** C9 at a fetch that failed although the response carries errors, and
    at a fetch that succeeded with such a response. *)
Lemma poll_transport_error_passed_through_witness :
  ∃ k,
    poll_ new_api_error job_eu (Ref 2) store = Perform GetMetadata store k ∧
    k [Str "ECONNRESET"; Null; Ref 7] store =
    Ret (failure (Ref 2) (Str "ECONNRESET")) store ∧
    k [Null; Ref 7; Ref 7] store =
    Ret (failure (Ref 2) (Ref 12)) (<[12 := api_error store (Ref 6)]> store) ∧
    truthy (arg 0 [Null; Ref 7; Ref 7]) = false ∧
    carries_errors store (arg 2 [Null; Ref 7; Ref 7]) = true.
Proof.
  destruct (poll_transport_error_passed_through new_api_error job_eu (Ref 2) store)
    as (k & Heq & Herr & Hbuilt).
  assert (Hk : k [Null; Ref 7; Ref 7] store =
               Ret (failure (Ref 2) (Ref 12)) (<[12 := api_error store (Ref 6)]> store)).
  { injection Heq as <-. vm_compute. reflexivity. }
  exists k. split; [exact Heq|]. split; [|split; [exact Hk|]].
  - apply (Herr [Str "ECONNRESET"; Null; Ref 7] store). reflexivity.
  - destruct (Hbuilt [Null; Ref 7; Ref 7] store _ _ Hk) as (Hfetched & Hcarried & _).
    + intros Hsame. apply (f_equal (λ h : heap, h !! 12)) in Hsame.
      vm_compute in Hsame. discriminate.
    + by split.
Defined.

(** C10 at the caller's options object [{autoPaginate: false}]. *)
Lemma getQueryResults_leaves_objects_unchanged_witness :
  ∃ r out h',
    run (answering [Null; Ref 5])
        (getQueryResults merge_id job_eu (Ref 1) (Ref 2) store) =
    ([BigQueryRequest r], out, h') ∧
    h' !! 1 = Some (literal {["autoPaginate" := Bool false]}) ∧
    qs r ≠ Ref 1 ∧
    ∀ cb args, out = Invoke cb args → arg 2 args ≠ Ref 1.
Proof.
  apply (getQueryResults_leaves_objects_unchanged merge_id (answering [Null; Ref 5])
           job_eu (Ref 1) (Ref 2) store 1 (literal {["autoPaginate" := Bool false]})).
  - vm_compute. reflexivity.
  - intros c h' Hl. exact Hl.
Defined.

End Instances.

End Claims.

(** ** Further properties of the job handle *)

Module Extras.
Import Js Job Spec JsFacts JobFacts Claims.

(** [extend] keeps the target an object of its kind, with every key it had. *)
Lemma extend1_keeps target h source k m :
  h !! target = Some (Object k m) →
  ∃ m', extend1 target h source !! target = Some (Object k m') ∧
        ∀ key, is_Some (m !! key) → is_Some (m' !! key).
Proof.
  intros Ht. unfold extend1. destruct (is_nullish source); [by exists m|].
  rewrite Ht, lookup_insert_eq. eexists. split; [done|].
  intros key [v Hv]. unfold assign.
  destruct (defined (own h source) !! key) as [v'|] eqn:E.
  - exists v'. by apply lookup_union_Some_l.
  - exists v. rewrite lookup_union_r; done.
Qed.

Lemma extend_keeps target h sources k m :
  h !! target = Some (Object k m) →
  ∃ m', extend h target sources !! target = Some (Object k m') ∧
        ∀ key, is_Some (m !! key) → is_Some (m' !! key).
Proof.
  unfold extend. revert h m. induction sources as [|s ss IH]; intros h m Ht.
  - by exists m.
  - cbn [foldl]. destruct (extend1_keeps target h s k m Ht) as (m1 & H1 & Hk1).
    destruct (IH _ _ H1) as (m2 & H2 & Hk2). exists m2. split; [done|]. auto.
Qed.

(** Defaulting a key a second time changes nothing. *)
Lemma defaulted_again key dflt req (m : gmap string value) :
  prop m key = defaulted key dflt req key →
  ∀ name, defaulted key dflt m name = prop m name.
Proof.
  intros Hkey name. unfold defaulted at 1.
  destruct (is_undefined (prop m name)) eqn:Eu; [|done].
  apply is_undefined_true in Eu. rewrite Eu.
  destruct (String.eqb_spec name key) as [->|Hne]; [|done].
  rewrite Eu in Hkey. unfold defaulted in Hkey. rewrite String.eqb_refl in Hkey.
  destruct (is_undefined (prop req key)) eqn:Er; [done|].
  rewrite <- Hkey in Er. discriminate.
Qed.

Section Collaborators.
Variable mergeSchemaWithRows_ : heap → value → value → option value.
Variable ApiError : heap → value → option object.

Local Abbreviation getQueryResults := (getQueryResults mergeSchemaWithRows_).
Local Abbreviation onQueryResults := (onQueryResults mergeSchemaWithRows_).
Local Abbreviation rows_of := (rows_of mergeSchemaWithRows_).

(** The query parameters of the request are a plain object that has a
    [location] key. *)
Lemma getQueryResults_request_object this options callback h :
  ∃ lq h1 m,
    getQueryResults this options callback h =
    Perform (BigQueryRequest (ReqOpts None ("/queries/" +:+ id this) (Ref lq))) h1
            (onQueryResults (Ref lq) (the_callback h options callback)) ∧
    h1 !! lq = Some (Object Plain m) ∧ is_Some (m !! "location").
Proof.
  unfold Job.getQueryResults, the_callback, alloc.
  destruct (is_fn h options) eqn:Efn.
  - set (h0 := <[fresh (dom h) := literal ∅]> h).
    destruct (extend_keeps (fresh (dom h0))
                (<[fresh (dom h0) := literal {["location" := location this]}]> h0)
                [Ref (fresh (dom h))] Plain {["location" := location this]})
      as (m & Hm & Hk); [apply lookup_insert_eq|].
    eexists _, _, m. split; [reflexivity|]. split; [exact Hm|].
    apply Hk. rewrite lookup_singleton_eq. by eexists.
  - destruct (extend_keeps (fresh (dom h))
                (<[fresh (dom h) := literal {["location" := location this]}]> h)
                [options] Plain {["location" := location this]})
      as (m & Hm & Hk); [apply lookup_insert_eq|].
    eexists _, _, m. split; [reflexivity|]. split; [exact Hm|].
    apply Hk. rewrite lookup_singleton_eq. by eexists.
Qed.

(** A cursor that is an object is a plain one. *)
Lemma nextQuery_of_plain h options resp l h' :
  nextQuery_of h options resp = Some (Ref l, h') →
  ∃ m, h' !! l = Some (Object Plain m).
Proof.
  unfold nextQuery_of, alloc.
  destruct (get h resp "jobComplete") as [jc|]; [|discriminate]. cbn.
  destruct (strict_eq_false jc).
  - intros [= <- <-].
    destruct (extend_keeps (fresh (dom h)) (<[fresh (dom h) := literal ∅]> h)
                [options] Plain ∅) as (m & Hm & _); [apply lookup_insert_eq|].
    by exists m.
  - destruct (get h resp "pageToken") as [pt|]; [|discriminate]. cbn.
    destruct (truthy pt); [|discriminate]. intros [= <- <-].
    set (l0 := fresh (dom h)). set (h1 := <[l0 := literal ∅]> h).
    set (l1 := fresh (dom h1)).
    assert (Hl1 : h1 !! l1 = None) by apply alloc_spec, (literal ∅).
    apply lookup_insert_None in Hl1 as [_ Hne].
    destruct (extend_keeps l0 (<[l1 := literal {["pageToken" := pt]}]> h1)
                [options; Ref l1] Plain ∅) as (m & Hm & _).
    { rewrite lookup_insert_ne by done. apply lookup_insert_eq. }
    by exists m.
Qed.

(** X5.  Paging by hand closes the loop: when a successful answer yields a
    cursor and the cursor is given back as the options of the next call on
    the same handle, the next request goes to the same endpoint with query
    parameters that read exactly as the cursor.  After an incomplete job
    they read as the parameters of the first request; after a page with a
    token they read as those with [pageToken] set to the token. *)
Theorem cursor_round_trip this options callback callback' h :
  ∃ r h1 k,
    getQueryResults this options callback h = Perform (BigQueryRequest r) h1 k ∧
    ∀ reply h2 rows jobComplete pageToken,
      truthy (arg 0 reply) = false →
      rows_of h2 (arg 1 reply) = Some rows →
      get h2 (arg 1 reply) "jobComplete" = Some jobComplete →
      get h2 (arg 1 reply) "pageToken" = Some pageToken →
      own h2 (qs r) = own h1 (qs r) →
      strict_eq_false jobComplete || truthy pageToken = true →
      ∃ cursor h3 r' h4 k',
        k reply h2 =
        Ret (Invoke (the_callback h options callback)
                    [Null; rows; cursor; arg 1 reply]) h3 ∧
        getQueryResults this cursor callback' h3 =
        Perform (BigQueryRequest r') h4 k' ∧
        uri r' = uri r ∧
        (∀ name, get h4 (qs r') name = get h3 cursor name) ∧
        (∀ name, get h4 (qs r') name =
                 if strict_eq_false jobComplete then get h1 (qs r) name
                 else if String.eqb name "pageToken" then Some pageToken
                      else get h1 (qs r) name).
Proof.
  destruct (getQueryResults_shape mergeSchemaWithRows_ this options callback h)
    as (lq & h1 & Heq & _ & _ & Hsent).
  eexists _, h1, _. split; [exact Heq|].
  intros reply h2 rows jc pt Herr Hrows Hjc Hpt Hsame Hcursor. cbn [qs] in *.
  destruct (nextQuery_of_spec h2 (Ref lq) (arg 1 reply) jc pt Hjc Hpt)
    as (cursor & h3 & Hnext & _ & _ & Hretry & Hnextp & _).
  assert (Hobj : ∃ lc, cursor = Ref lc ∧
            ∀ name, get h3 (Ref lc) name =
                    Some (if strict_eq_false jc then prop (own h1 (Ref lq)) name
                          else with_prop "pageToken" pt (prop (own h1 (Ref lq))) name)).
  { destruct (strict_eq_false jc) eqn:Ejc.
    - destruct (Hretry eq_refl) as (_ & lc & -> & _ & Hreads).
      exists lc. split; [done|]. intros name. by rewrite Hreads, Hsame.
    - cbn in Hcursor. destruct (Hnextp eq_refl Hcursor) as (_ & _ & lc & -> & _ & Hreads).
      exists lc. split; [done|]. intros name. by rewrite Hreads, Hsame. }
  destruct Hobj as (lc & -> & Hreads).
  destruct (nextQuery_of_plain h2 (Ref lq) (arg 1 reply) lc h3 Hnext) as [mc Hmc].
  assert (Hfn : is_fn h3 (Ref lc) = false) by (cbn; by rewrite Hmc).
  destruct (getQueryResults_shape mergeSchemaWithRows_ this (Ref lc) callback' h3)
    as (lq' & h4 & Heq' & _ & _ & Hsent').
  unfold requested in Hsent'. rewrite Hfn in Hsent'.
  assert (Hloc : prop (own h3 (Ref lc)) "location" =
                 defaulted "location" (location this) (requested h options) "location").
  { specialize (Hreads "location"). specialize (Hsent "location").
    change (get h3 (Ref lc) "location")
      with (Some (prop (own h3 (Ref lc)) "location")) in Hreads.
    change (get h1 (Ref lq) "location")
      with (Some (prop (own h1 (Ref lq)) "location")) in Hsent.
    apply (inj Some) in Hreads, Hsent. rewrite Hreads, <- Hsent.
    unfold with_prop. by destruct (strict_eq_false jc). }
  assert (Hsame' : ∀ name, get h4 (Ref lq') name = get h3 (Ref lc) name).
  { intros name. rewrite Hsent'.
    by rewrite (defaulted_again _ _ _ _ Hloc). }
  eexists (Ref lc), h3, _, h4, _. split; [by apply onQueryResults_ok|].
  split; [exact Heq'|]. split; [done|]. split; [exact Hsame'|].
  intros name. cbn [qs]. rewrite Hsame', Hreads. unfold with_prop.
  destruct (strict_eq_false jc); [done|]. by destruct (String.eqb name "pageToken").
Qed.

(** X6.  The cursor is never the object that was sent as the query
    parameters of the request: what the caller does to a cursor cannot
    reach the request object, as long as that object still stands when the
    answer arrives. *)
Theorem cursor_is_not_the_request_object this options callback h :
  ∃ r h1 k,
    getQueryResults this options callback h = Perform (BigQueryRequest r) h1 k ∧
    ∀ reply h2 callback'' args h3,
      own h2 (qs r) = own h1 (qs r) →
      k reply h2 = Ret (Invoke callback'' args) h3 →
      arg 2 args ≠ qs r.
Proof.
  destruct (getQueryResults_request_object this options callback h)
    as (lq & h1 & m & Heq & Hm & Hloc).
  eexists _, h1, _. split; [exact Heq|].
  intros reply h2 cb args h3 Hsame Hk. cbn [qs] in *.
  assert (Hlq : is_Some (h2 !! lq)).
  { cbn in Hsame. rewrite Hm in Hsame. destruct (h2 !! lq); [by eexists|].
    cbn in Hsame. destruct Hloc as [v Hv]. rewrite <- Hsame in Hv.
    by rewrite lookup_empty in Hv. }
  unfold Job.onQueryResults in Hk. destruct (truthy (arg 0 reply)).
  { by injection Hk as _ <-. }
  fold rows_of in Hk. destruct (rows_of h2 (arg 1 reply)) as [rows|]; [|discriminate].
  cbn in Hk.
  destruct (nextQuery_of h2 (Ref lq) (arg 1 reply)) as [[cursor h']|] eqn:Hnext;
    [|discriminate].
  cbn in Hk. injection Hk as _ <- _. cbn.
  destruct (nextQuery_of_frame _ _ _ _ _ Hnext) as [_ Hfresh].
  intros ->. specialize (Hfresh lq eq_refl). rewrite Hfresh in Hlq. by destruct Hlq.
Qed.

(** X7.  When the results fetch calls back with neither an error nor a
    response ([undefined] or [null], or with no argument at all), reading
    the response raises: the callback is never invoked and the store is
    left as it is. *)
Theorem getQueryResults_throws_without_response this options callback h :
  ∃ r h1 k,
    getQueryResults this options callback h = Perform (BigQueryRequest r) h1 k ∧
    k [] h1 = Ret Throw h1 ∧
    ∀ reply h2,
      truthy (arg 0 reply) = false →
      is_nullish (arg 1 reply) = true →
      k reply h2 = Ret Throw h2.
Proof.
  destruct (getQueryResults_shape mergeSchemaWithRows_ this options callback h)
    as (lq & h1 & Heq & _).
  eexists _, h1, _. split; [exact Heq|].
  assert (Hk : ∀ reply h2, truthy (arg 0 reply) = false →
                 is_nullish (arg 1 reply) = true →
                 onQueryResults (Ref lq) (the_callback h options callback) reply h2 =
                 Ret Throw h2).
  { intros reply h2 Herr Hresp. unfold Job.onQueryResults, Job.rows_of.
    rewrite Herr. by destruct (arg 1 reply). }
  split; [by apply Hk|exact Hk].
Qed.

(** X3.  Called with the callback first, [getQueryResults] discards any
    second argument, sends query parameters that hold the job handle's
    location and nothing else, and answers to that first argument only. *)
Theorem callback_first_ignores_second_argument this fn second second' h :
  is_fn h fn = true →
  getQueryResults this fn second h = getQueryResults this fn second' h ∧
  ∃ r h1 k,
    getQueryResults this fn second h = Perform (BigQueryRequest r) h1 k ∧
    (∀ name, get h1 (qs r) name =
             Some (if String.eqb name "location" then location this else Undefined)) ∧
    ∀ reply h2 cb args h3, k reply h2 = Ret (Invoke cb args) h3 → cb = fn.
Proof.
  intros Hfn. split.
  { unfold Job.getQueryResults. by rewrite Hfn. }
  destruct (getQueryResults_shape mergeSchemaWithRows_ this fn second h)
    as (lq & h1 & Heq & _ & _ & Hsent).
  unfold requested, the_callback in *. rewrite Hfn in *.
  eexists _, h1, _. split; [exact Heq|]. split; [exact Hsent|].
  intros reply h2 cb args h3. unfold Job.onQueryResults.
  destruct (truthy (arg 0 reply)); [by intros [= <- _ _]|].
  fold rows_of. destruct (rows_of h2 (arg 1 reply)); [|discriminate]. cbn.
  destruct (nextQuery_of h2 (Ref lq) (arg 1 reply)) as [[c h']|]; [|discriminate].
  cbn. by intros [= <- _ _].
Qed.

(** X4.  Called with [undefined] or [null] for the options,
    [getQueryResults] does not raise: it sends query parameters that hold
    the job handle's location and nothing else. *)
Theorem nullish_options_send_location_only this options callback h :
  is_nullish options = true →
  ∃ r h1 k,
    getQueryResults this options callback h = Perform (BigQueryRequest r) h1 k ∧
    uri r = "/queries/" +:+ id this ∧
    ∀ name, get h1 (qs r) name =
            Some (if String.eqb name "location" then location this else Undefined).
Proof.
  intros Hn.
  destruct (getQueryResults_shape mergeSchemaWithRows_ this options callback h)
    as (lq & h1 & Heq & _ & _ & Hsent).
  eexists _, h1, _. split; [exact Heq|]. split; [done|].
  intros name. rewrite Hsent. unfold requested, defaulted.
  by destruct options.
Qed.

(** X2.  The location a job is created with is the default of every
    results request: a location the request sets itself is sent as it is;
    otherwise the request carries the truthy [options.location] given to
    the constructor; and when the constructor was given none, or a falsy
    one, the request carries no location. *)
Theorem results_location_after_new h0 id0 options0 options callback h :
  ∃ r h1 k,
    getQueryResults (new h0 id0 options0) options callback h =
    Perform (BigQueryRequest r) h1 k ∧
    uri r = "/queries/" +:+ id0 ∧
    let own_location := prop (requested h options) "location" in
    (is_undefined own_location = false →
     get h1 (qs r) "location" = Some own_location) ∧
    (is_undefined own_location = true →
     ∀ v, truthy options0 = true → get h0 options0 "location" = Some v →
          truthy v = true → get h1 (qs r) "location" = Some v) ∧
    (is_undefined own_location = true →
     truthy options0 = false ∨
     (∃ v, get h0 options0 "location" = Some v ∧ truthy v = false) →
     get h1 (qs r) "location" = Some Undefined).
Proof.
  destruct (getQueryResults_shape mergeSchemaWithRows_ (new h0 id0 options0)
              options callback h) as (lq & h1 & Heq & _ & _ & Hsent).
  eexists _, h1, _. split; [exact Heq|]. split; [done|]. cbn [qs].
  specialize (Hsent "location"). unfold defaulted in Hsent.
  rewrite String.eqb_refl in Hsent. cbv zeta. split; [|split].
  - intros Hown. by rewrite Hown in Hsent.
  - intros Hown v Ho Hv Htv. rewrite Hown in Hsent. rewrite Hsent.
    unfold new. cbn [location]. by rewrite Ho, Hv, Htv.
  - intros Hown Hnone. rewrite Hown in Hsent. rewrite Hsent.
    unfold new. cbn [location]. destruct Hnone as [->|(v & Hv & Htv)]; [done|].
    rewrite Hv, Htv. by destruct (truthy options0).
Qed.

(** X13.  A cursor is handed out only after an answer without an error
    whose response has [jobComplete === false] or a truthy [pageToken]:
    never with an error, never for a complete job without further
    pages. *)
Theorem cursor_only_when_more_to_fetch this options callback h :
  ∃ r h1 k,
    getQueryResults this options callback h = Perform (BigQueryRequest r) h1 k ∧
    ∀ reply h2 cb args h3,
      k reply h2 = Ret (Invoke cb args) h3 →
      arg 2 args ≠ Null →
      truthy (arg 0 reply) = false ∧
      arg 0 args = Null ∧
      ∃ jobComplete pageToken,
        get h2 (arg 1 reply) "jobComplete" = Some jobComplete ∧
        get h2 (arg 1 reply) "pageToken" = Some pageToken ∧
        strict_eq_false jobComplete || truthy pageToken = true.
Proof.
  destruct (getQueryResults_shape mergeSchemaWithRows_ this options callback h)
    as (lq & h1 & Heq & _).
  eexists _, h1, _. split; [exact Heq|].
  intros reply h2 cb args h3. unfold Job.onQueryResults.
  destruct (truthy (arg 0 reply)); [by intros [= _ <- _]|].
  fold rows_of. destruct (rows_of h2 (arg 1 reply)) as [rows|]; [|discriminate]. cbn.
  destruct (nextQuery_of h2 (Ref lq) (arg 1 reply)) as [[c h']|] eqn:Hnext;
    [|discriminate].
  cbn. intros [= _ <- _] Hc. cbn in Hc. split; [done|]. split; [done|].
  unfold nextQuery_of in Hnext.
  destruct (get h2 (arg 1 reply) "jobComplete") as [jc|] eqn:Hjc; [|discriminate].
  destruct (get_readable _ _ _ "pageToken" _ Hjc) as [pt Hpt].
  exists jc, pt. split; [done|]. split; [done|]. cbn in Hnext. rewrite Hpt in Hnext.
  destruct (strict_eq_false jc); [done|]. cbn in Hnext.
  destruct (truthy pt); [done|]. by injection Hnext as <- _.
Qed.

Local Abbreviation poll_ := (poll_ ApiError).
Local Abbreviation onMetadata := (onMetadata ApiError).
Local Abbreviation status_error := (status_error ApiError).

Lemma status_error_cases h err apiResponse e h' :
  status_error h err apiResponse = Some (e, h') →
  (e = err ∧ h' = h ∧ (truthy err = true ∨ carries_errors h apiResponse = false)) ∨
  (truthy err = false ∧ carries_errors h apiResponse = true ∧ truthy e = true ∧
   ∃ built, e = Ref (fresh (dom h)) ∧ h' = <[fresh (dom h) := built]> h).
Proof.
  intros Hs. destruct (truthy err) eqn:Herr.
  - rewrite (status_error_failed ApiError) in Hs by done.
    injection Hs as <- <-. left. auto.
  - destruct (get h apiResponse "status") as [status|] eqn:Hst.
    + rewrite (status_error_fetched ApiError _ _ _ status Herr Hst) in Hs.
      destruct (carries_errors h apiResponse).
      * destruct (ApiError h status) as [built|]; [|discriminate].
        injection Hs as <- <-. right. repeat split; try done. by exists built.
      * injection Hs as <- <-. left. auto.
    + unfold Job.status_error in Hs. rewrite Herr, Hst in Hs. discriminate.
Qed.

(** X12.  [poll_] reports a job complete only when the fetch answered
    without an error, the response carries no [status.errors], and the
    metadata's [status.state] is exactly the string ['DONE']; what it
    hands over is the metadata it was given, and nothing is built. *)
Theorem poll_success_only_when_done this callback h :
  ∃ k,
    poll_ this callback h = Perform GetMetadata h k ∧
    ∀ reply h2 m h3,
      k reply h2 = Ret (success callback m) h3 →
      truthy (arg 0 reply) = false ∧
      carries_errors h2 (arg 2 reply) = false ∧
      m = arg 1 reply ∧
      h3 = h2 ∧
      ∃ status,
        get h2 (arg 1 reply) "status" = Some status ∧
        get h2 status "state" = Some (Str "DONE").
Proof.
  eexists. split; [reflexivity|]. intros reply h2 m h3.
  unfold Job.onMetadata, success. fold status_error.
  destruct (status_error h2 (arg 0 reply) (arg 2 reply)) as [[e h']|] eqn:Hs;
    [|discriminate].
  cbn. destruct (truthy e) eqn:He; [discriminate|].
  destruct (status_error_cases _ _ _ _ _ Hs)
    as [(-> & -> & Hc)|(_ & _ & He' & _)]; [|congruence].
  destruct Hc as [Hc|Hc]; [congruence|].
  destruct (get h2 (arg 1 reply) "status") as [status|] eqn:Hst; [|discriminate]. cbn.
  destruct (get h2 status "state") as [state|] eqn:Hstate; [|discriminate]. cbn.
  destruct (strict_eq_str state "DONE") eqn:Hd; cbn; [|discriminate].
  intros [= <- <-]. repeat split; try done. exists status. split; [done|].
  destruct state; try discriminate. cbn in Hd. by apply String.eqb_eq in Hd as ->.
Qed.

(** X8.  [poll_] raises, and calls nothing back, when the fetch answers
    without an error but there is no response, or when no errors are
    carried and the metadata is missing or has no [status] to read the
    state from. *)
Theorem poll_throws_without_status this callback h :
  ∃ k,
    poll_ this callback h = Perform GetMetadata h k ∧
    ∀ reply h2,
      truthy (arg 0 reply) = false →
      is_nullish (arg 2 reply) = true ∨
      (is_nullish (arg 2 reply) = false ∧
       carries_errors h2 (arg 2 reply) = false ∧
       (is_nullish (arg 1 reply) = true ∨
        ∃ status, get h2 (arg 1 reply) "status" = Some status ∧
                  is_nullish status = true)) →
      k reply h2 = Ret Throw h2.
Proof.
  eexists. split; [reflexivity|]. intros reply h2 Herr Hmissing.
  unfold Job.onMetadata. fold status_error.
  destruct Hmissing as [Hn|(Hn & Hc & Hm)].
  - unfold Job.status_error. rewrite Herr. by destruct (arg 2 reply).
  - assert (∃ s, get h2 (arg 2 reply) "status" = Some s) as [s Hs]
      by (destruct (arg 2 reply); try discriminate; by eexists).
    rewrite (status_error_fetched ApiError _ _ _ s Herr Hs), Hc. cbn. rewrite Herr.
    destruct Hm as [Hm|(status & Hst & Hm)].
    + by destruct (arg 1 reply).
    + rewrite Hst. cbn. by destruct status.
Qed.

(** X9.  An [errors] array under [status] stops the poll whatever it
    holds, the empty array included, and whatever the state: the poll
    fails with the error built from [status], or raises when the error
    cannot be built; it is never incomplete and never a success. *)
Theorem poll_stops_on_any_errors_array this callback h :
  ∃ k,
    poll_ this callback h = Perform GetMetadata h k ∧
    ∀ reply h2 status elems,
      truthy (arg 0 reply) = false →
      get h2 (arg 2 reply) "status" = Some status →
      truthy status = true →
      get h2 status "errors" = Some (Arr elems) →
      match ApiError h2 status with
      | Some e =>
          k reply h2 =
          Ret (failure callback (Ref (fresh (dom h2)))) (<[fresh (dom h2) := e]> h2)
      | None => k reply h2 = Ret Throw h2
      end.
Proof.
  eexists. split; [reflexivity|]. intros reply h2 status elems Herr Hst Hts Herrs.
  assert (Hc : carries_errors h2 (arg 2 reply) = true)
    by (unfold carries_errors; by rewrite Hst, Hts, Herrs).
  rewrite (onMetadata_errors ApiError callback reply h2 status Herr Hst Hc).
  by destruct (ApiError h2 status).
Qed.

(** X11.  [poll_] writes to no object it did not build: the metadata and
    the response it is given, like every other object of the store, are
    after the poll what they were before. *)
Theorem poll_writes_nothing this callback h :
  ∃ k,
    poll_ this callback h = Perform GetMetadata h k ∧
    ∀ reply h2 o h3 l ob,
      k reply h2 = Ret o h3 →
      h2 !! l = Some ob →
      h3 !! l = Some ob.
Proof.
  eexists. split; [reflexivity|]. intros reply h2 o h3 l ob.
  unfold Job.onMetadata. fold status_error.
  destruct (status_error h2 (arg 0 reply) (arg 2 reply)) as [[e h']|] eqn:Hs;
    [|by intros [= _ <-]].
  assert (Hframe : h2 !! l = Some ob → h' !! l = Some ob).
  { intros Hl. destruct (status_error_cases _ _ _ _ _ Hs)
      as [(_ & -> & _)|(_ & _ & _ & status & _ & ->)]; [done|].
    rewrite lookup_insert_ne; [done|]. intros <-.
    assert (h2 !! fresh (dom h2) = None) by apply alloc_spec, ob. congruence. }
  cbn. destruct (truthy e).
  { intros [= _ <-]. exact Hframe. }
  destruct (get h' (arg 1 reply) "status") as [status|]; cbn; [|by intros [= _ <-]].
  destruct (get h' status "state") as [state|]; cbn; [|by intros [= _ <-]].
  destruct (negb (strict_eq_str state "DONE")); intros [= _ <-]; exact Hframe.
Qed.

End Collaborators.

(** X1.  [cancel] on a handle sends the location the handle was created
    with: a fresh [{location}] object when the constructor was given a
    truthy [options.location], and no query parameters when it was given no
    options or a falsy location (the empty string included). *)
Theorem cancel_after_new h0 id0 options0 callback h :
  ∃ r h1 k,
    cancel (new h0 id0 options0) callback h = Perform (Request r) h1 k ∧
    (∀ v, truthy options0 = true → get h0 options0 "location" = Some v →
          truthy v = true →
          ∃ l, qs r = Ref l ∧ h !! l = None ∧
               h1 = <[l := literal {["location" := v]}]> h) ∧
    (truthy options0 = false ∨
     (∃ v, get h0 options0 "location" = Some v ∧ truthy v = false) →
     qs r = Undefined ∧ h1 = h).
Proof.
  unfold cancel, new, alloc. cbn [location].
  destruct (truthy options0) eqn:Ho.
  - destruct (get h0 options0 "location") as [v|] eqn:Hv.
    + destruct (truthy v) eqn:Htv.
      * rewrite Htv. eexists _, _, _. split; [reflexivity|]. split.
        -- intros v' _ [= <-] _. eexists. split; [done|]. split; [|done].
           apply alloc_spec, (literal ∅).
        -- intros [|(v' & [= <-] & ?)]; congruence.
      * cbn. eexists _, _, _. split; [reflexivity|]. split; [|done].
        intros v' _ [= <-] ?. congruence.
    + cbn. eexists _, _, _. split; [reflexivity|]. split; [|done].
      intros v' _ ? _. congruence.
  - cbn. eexists _, _, _. split; [reflexivity|]. split; [|done].
    intros v' ? _ _. congruence.
Qed.

(** X10.  The lazy streaming entry point writes to no object that existed
    before: the caller's options object is unchanged, and the options it
    passes on are another, new object. *)
Theorem stream_leaves_options_unchanged this options callback h :
  ∃ lq h1 k,
    getQueryResultsAsStream_ this options callback h =
    Perform (GetQueryResults (Ref lq)) h1 k ∧
    h !! lq = None ∧
    ∀ l o, h !! l = Some o → h1 !! l = Some o ∧ l ≠ lq.
Proof.
  unfold getQueryResultsAsStream_, alloc.
  assert (Hl : h !! fresh (dom h) = None) by apply alloc_spec, (literal ∅).
  eexists _, _, _. split; [reflexivity|]. split; [done|].
  intros l o Hlo. split; [by apply extend_alloc_frame|congruence].
Qed.

(** *** The further properties at concrete jobs, stores and answers *)

Section Instances.
Import Example Edge.

(** X1 for a constructor given [{location: "asia", ...}] and for one given
    options without a location. *)
Lemma cancel_after_new_witness :
  (∃ r h1 k l,
     cancel (new store "job-1" (Ref 9)) (Ref 2) store = Perform (Request r) h1 k ∧
     qs r = Ref l ∧ h1 = <[l := literal {["location" := Str "asia"]}]> store) ∧
  (∃ r h1 k,
     cancel (new store "job-1" (Ref 1)) (Ref 2) store = Perform (Request r) h1 k ∧
     qs r = Undefined ∧ h1 = store).
Proof.
  split.
  - destruct (cancel_after_new store "job-1" (Ref 9) (Ref 2) store)
      as (r & h1 & k & Heq & Hyes & _).
    destruct (Hyes (Str "asia")) as (l & Hqs & _ & Hh1);
      [reflexivity|vm_compute; reflexivity|reflexivity|].
    by exists r, h1, k, l.
  - destruct (cancel_after_new store "job-1" (Ref 1) (Ref 2) store)
      as (r & h1 & k & Heq & _ & Hno).
    destruct Hno as [Hqs Hh1].
    { right. exists Undefined. split; [vm_compute; reflexivity|reflexivity]. }
    by exists r, h1, k.
Defined.

(** X2 for a job created in ["asia"] and a request that sets no location,
    and for the same job and a request that sets its own. *)
Lemma results_location_after_new_witness :
  (∃ r h1 k,
     getQueryResults merge_id (new store "job-1" (Ref 9)) (Ref 1) (Ref 2) store =
     Perform (BigQueryRequest r) h1 k ∧
     get h1 (qs r) "location" = Some (Str "asia")) ∧
  (∃ r h1 k,
     getQueryResults merge_id (new store "job-1" (Ref 1)) (Ref 9) (Ref 2) store =
     Perform (BigQueryRequest r) h1 k ∧
     get h1 (qs r) "location" = Some (Str "asia")) ∧
  (∃ r h1 k,
     getQueryResults merge_id (new store "job-1" (Ref 1)) (Ref 1) (Ref 2) store =
     Perform (BigQueryRequest r) h1 k ∧
     get h1 (qs r) "location" = Some Undefined).
Proof.
  split; [|split].
  - destruct (results_location_after_new merge_id store "job-1" (Ref 9)
                (Ref 1) (Ref 2) store) as (r & h1 & k & Heq & _ & _ & Hd & _).
    exists r, h1, k. split; [exact Heq|].
    apply (Hd ltac:(vm_compute; reflexivity) (Str "asia"));
      [reflexivity|vm_compute; reflexivity|reflexivity].
  - destruct (results_location_after_new merge_id store "job-1" (Ref 1)
                (Ref 9) (Ref 2) store) as (r & h1 & k & Heq & _ & Hown & _).
    exists r, h1, k. split; [exact Heq|].
    apply (Hown ltac:(vm_compute; reflexivity)).
  - destruct (results_location_after_new merge_id store "job-1" (Ref 1)
                (Ref 1) (Ref 2) store) as (r & h1 & k & Heq & _ & _ & _ & Hn).
    exists r, h1, k. split; [exact Heq|].
    apply (Hn ltac:(vm_compute; reflexivity)).
    right. exists Undefined. split; [vm_compute; reflexivity|reflexivity].
Defined.

(** X3 for a call with the callback first and an options object second. *)
Lemma callback_first_ignores_second_argument_witness :
  getQueryResults merge_id job_eu (Ref 2) (Ref 1) store =
  getQueryResults merge_id job_eu (Ref 2) Undefined store ∧
  ∃ r h1 k cb args h3,
    getQueryResults merge_id job_eu (Ref 2) (Ref 1) store =
    Perform (BigQueryRequest r) h1 k ∧
    get h1 (qs r) "autoPaginate" = Some Undefined ∧
    k [Null; Ref 5] h1 = Ret (Invoke cb args) h3 ∧
    cb = Ref 2.
Proof.
  destruct (callback_first_ignores_second_argument merge_id job_eu (Ref 2) (Ref 1)
              Undefined store) as (Hsame & r & h1 & k & Heq & Hreads & Hcb);
    [vm_compute; reflexivity|].
  assert (Hh1 : store_of (getQueryResults merge_id job_eu (Ref 2) (Ref 1) store) = h1)
    by (rewrite Heq; reflexivity).
  assert (Hk : continuation_of
                 (getQueryResults merge_id job_eu (Ref 2) (Ref 1) store) = k)
    by (rewrite Heq; reflexivity).
  vm_compute in Hh1.
  assert (Hrun : ∃ cb args h3, k [Null; Ref 5] h1 = Ret (Invoke cb args) h3).
  { rewrite <- Hk, <- Hh1. eexists _, _, _. vm_compute. reflexivity. }
  destruct Hrun as (cb & args & h3 & Hrun).
  split; [exact Hsame|]. exists r, h1, k, cb, args, h3. split; [exact Heq|].
  split; [apply (Hreads "autoPaginate")|]. split; [exact Hrun|].
  apply (Hcb _ _ _ _ _ Hrun).
Defined.

(** X4 for a call with [undefined] for the options. *)
Lemma nullish_options_send_location_only_witness :
  ∃ r h1 k,
    getQueryResults merge_id job_eu Undefined (Ref 2) store =
    Perform (BigQueryRequest r) h1 k ∧
    get h1 (qs r) "location" = Some (Str "EU") ∧
    get h1 (qs r) "pageToken" = Some Undefined.
Proof.
  destruct (nullish_options_send_location_only merge_id job_eu Undefined (Ref 2) store)
    as (r & h1 & k & Heq & _ & Hreads); [reflexivity|].
  exists r, h1, k. split; [exact Heq|].
  split; [apply (Hreads "location")|apply (Hreads "pageToken")].
Defined.

(** X5 for the request [{location: "asia", maxResults: 10}] and the
    response [{jobComplete: true, pageToken: "next"}]. *)
Lemma cursor_round_trip_witness :
  ∃ r h1 k cursor h3 r' h4 k',
    getQueryResults merge_id job_eu (Ref 9) (Ref 2) store =
    Perform (BigQueryRequest r) h1 k ∧
    k [Null; Ref 5] h1 = Ret (Invoke (Ref 2) [Null; Arr []; cursor; Ref 5]) h3 ∧
    getQueryResults merge_id job_eu cursor (Ref 2) h3 =
    Perform (BigQueryRequest r') h4 k' ∧
    get h4 (qs r') "pageToken" = Some (Str "next") ∧
    get h4 (qs r') "maxResults" = get h1 (qs r) "maxResults".
Proof.
  destruct (cursor_round_trip merge_id job_eu (Ref 9) (Ref 2) (Ref 2) store)
    as (r & h1 & k & Heq & H).
  assert (Hh1 : store_of (getQueryResults merge_id job_eu (Ref 9) (Ref 2) store) = h1)
    by (rewrite Heq; reflexivity).
  vm_compute in Hh1.
  destruct (H [Null; Ref 5] h1 (Arr []) (Bool true) (Str "next"))
    as (cursor & h3 & r' & h4 & k' & Hk & Heq' & _ & _ & Hreads);
    [reflexivity|rewrite <- Hh1; vm_compute; reflexivity..|reflexivity|reflexivity|].
  exists r, h1, k, cursor, h3, r', h4, k'.
  split; [exact Heq|]. split; [exact Hk|]. split; [exact Heq'|].
  split; [apply (Hreads "pageToken")|apply (Hreads "maxResults")].
Defined.

(** X6 for the response [{jobComplete: false}]. *)
Lemma cursor_is_not_the_request_object_witness :
  ∃ r h1 k cb args h3,
    getQueryResults merge_id job_eu (Ref 1) (Ref 2) store =
    Perform (BigQueryRequest r) h1 k ∧
    k [Null; Ref 3] h1 = Ret (Invoke cb args) h3 ∧
    arg 2 args ≠ qs r.
Proof.
  destruct (cursor_is_not_the_request_object merge_id job_eu (Ref 1) (Ref 2) store)
    as (r & h1 & k & Heq & H).
  assert (Hh1 : store_of (getQueryResults merge_id job_eu (Ref 1) (Ref 2) store) = h1)
    by (rewrite Heq; reflexivity).
  assert (Hk : continuation_of
                 (getQueryResults merge_id job_eu (Ref 1) (Ref 2) store) = k)
    by (rewrite Heq; reflexivity).
  vm_compute in Hh1.
  assert (Hrun : ∃ cb args h3, k [Null; Ref 3] h1 = Ret (Invoke cb args) h3).
  { rewrite <- Hk, <- Hh1. eexists _, _, _. vm_compute. reflexivity. }
  destruct Hrun as (cb & args & h3 & Hrun).
  exists r, h1, k, cb, args, h3. split; [exact Heq|]. split; [exact Hrun|].
  apply (H [Null; Ref 3] h1 cb args h3 eq_refl Hrun).
Defined.

(** X7 for a fetch that calls back with [(null, undefined)]. *)
Lemma getQueryResults_throws_without_response_witness :
  ∃ r h1 k,
    getQueryResults merge_id job_eu (Ref 1) (Ref 2) store =
    Perform (BigQueryRequest r) h1 k ∧
    k [Null; Undefined] store = Ret Throw store.
Proof.
  destruct (getQueryResults_throws_without_response merge_id job_eu (Ref 1) (Ref 2)
              store) as (r & h1 & k & Heq & _ & H).
  exists r, h1, k. split; [exact Heq|].
  apply (H [Null; Undefined] store); reflexivity.
Defined.

(** X13 for the response [{jobComplete: true, pageToken: "next"}]. *)
Lemma cursor_only_when_more_to_fetch_witness :
  ∃ r h1 k jobComplete pageToken,
    getQueryResults merge_id job_eu (Ref 1) (Ref 2) store =
    Perform (BigQueryRequest r) h1 k ∧
    get h1 (Ref 5) "jobComplete" = Some jobComplete ∧
    get h1 (Ref 5) "pageToken" = Some pageToken ∧
    strict_eq_false jobComplete || truthy pageToken = true.
Proof.
  destruct (cursor_only_when_more_to_fetch merge_id job_eu (Ref 1) (Ref 2) store)
    as (r & h1 & k & Heq & H).
  assert (Hh1 : store_of (getQueryResults merge_id job_eu (Ref 1) (Ref 2) store) = h1)
    by (rewrite Heq; reflexivity).
  assert (Hk : continuation_of
                 (getQueryResults merge_id job_eu (Ref 1) (Ref 2) store) = k)
    by (rewrite Heq; reflexivity).
  vm_compute in Hh1.
  assert (Hrun : ∃ h3, k [Null; Ref 5] h1 =
                       Ret (Invoke (Ref 2) [Null; Arr []; Ref 13; Ref 5]) h3).
  { rewrite <- Hk, <- Hh1. eexists. vm_compute. reflexivity. }
  destruct Hrun as (h3 & Hrun).
  destruct (H [Null; Ref 5] h1 _ _ h3 Hrun) as (_ & _ & jc & pt & Hjc & Hpt & Hmore);
    [discriminate|].
  by exists r, h1, k, jc, pt.
Defined.

(** X12 for a [DONE] job without errors. *)
Lemma poll_success_only_when_done_witness :
  ∃ k,
    poll_ new_api_error job_eu (Ref 1) store_done = Perform GetMetadata store_done k ∧
    k [Null; Ref 3; Ref 3] store_done = Ret (success (Ref 1) (Ref 3)) store_done ∧
    carries_errors store_done (Ref 3) = false ∧
    ∃ status, get store_done (Ref 3) "status" = Some status ∧
              get store_done status "state" = Some (Str "DONE").
Proof.
  destruct (poll_success_only_when_done new_api_error job_eu (Ref 1) store_done)
    as (k & Heq & H).
  assert (Hk : k [Null; Ref 3; Ref 3] store_done =
               Ret (success (Ref 1) (Ref 3)) store_done).
  { injection Heq as <-. vm_compute. reflexivity. }
  exists k. split; [exact Heq|]. split; [exact Hk|].
  by destruct (H _ _ _ _ Hk) as (_ & Hc & _ & _ & Hst).
Defined.

(** X8 for a response without a [status]. *)
Lemma poll_throws_without_status_witness :
  ∃ k,
    poll_ new_api_error job_eu (Ref 2) store = Perform GetMetadata store k ∧
    k [Null; Ref 3; Ref 3] store = Ret Throw store ∧
    k [] store = Ret Throw store.
Proof.
  destruct (poll_throws_without_status new_api_error job_eu (Ref 2) store)
    as (k & Heq & H).
  exists k. split; [exact Heq|]. split.
  - apply (H [Null; Ref 3; Ref 3] store); [reflexivity|].
    right. split; [reflexivity|]. split; [vm_compute; reflexivity|].
    right. exists Undefined. split; [vm_compute; reflexivity|reflexivity].
  - apply (H [] store); [reflexivity|]. by left.
Defined.

(** X9 for a running job whose [status.errors] is the empty array, and
    for a job whose [status.errors] is [[null]]. *)
Lemma poll_stops_on_any_errors_array_witness :
  (∃ k,
     poll_ new_api_error job_eu (Ref 1) store_empty_errors =
     Perform GetMetadata store_empty_errors k ∧
     k [Null; Ref 3; Ref 3] store_empty_errors =
     Ret (failure (Ref 1) (Ref (fresh (dom store_empty_errors))))
         (<[fresh (dom store_empty_errors) :=
              api_error store_empty_errors (Ref 2)]> store_empty_errors)) ∧
  (∃ k,
     poll_ new_api_error job_eu (Ref 1) store_null_error =
     Perform GetMetadata store_null_error k ∧
     k [Null; Ref 3; Ref 3] store_null_error = Ret Throw store_null_error).
Proof.
  split.
  - destruct (poll_stops_on_any_errors_array new_api_error job_eu (Ref 1)
                store_empty_errors) as (k & Heq & H).
    exists k. split; [exact Heq|].
    apply (H [Null; Ref 3; Ref 3] store_empty_errors (Ref 2) []);
      [reflexivity|vm_compute; reflexivity|reflexivity|vm_compute; reflexivity].
  - destruct (poll_stops_on_any_errors_array new_api_error job_eu (Ref 1)
                store_null_error) as (k & Heq & H).
    exists k. split; [exact Heq|].
    apply (H [Null; Ref 3; Ref 3] store_null_error (Ref 2) [Null]);
      [reflexivity|vm_compute; reflexivity|reflexivity|vm_compute; reflexivity].
Defined.

(** X11 for a poll that builds an error: the job resource is untouched. *)
Lemma poll_writes_nothing_witness :
  ∃ k o h3,
    poll_ new_api_error job_eu (Ref 2) store = Perform GetMetadata store k ∧
    k [Null; Ref 7; Ref 7] store = Ret o h3 ∧
    h3 !! 7 = Some (literal {["status" := Ref 6]}).
Proof.
  destruct (poll_writes_nothing new_api_error job_eu (Ref 2) store) as (k & Heq & H).
  assert (Hk : ∃ o h3, k [Null; Ref 7; Ref 7] store = Ret o h3).
  { injection Heq as <-. eexists _, _. vm_compute. reflexivity. }
  destruct Hk as (o & h3 & Hk).
  exists k, o, h3. split; [exact Heq|]. split; [exact Hk|].
  apply (H _ _ _ _ 7 _ Hk). vm_compute. reflexivity.
Defined.

(** X10 for the caller's options [{autoPaginate: true}]. *)
Lemma stream_leaves_options_unchanged_witness :
  ∃ lq h1 k,
    getQueryResultsAsStream_ job_eu (Ref 4) (Ref 2) store =
    Perform (GetQueryResults (Ref lq)) h1 k ∧
    h1 !! 4 = Some (literal {["autoPaginate" := Bool true]}) ∧ 4 ≠ lq.
Proof.
  destruct (stream_leaves_options_unchanged job_eu (Ref 4) (Ref 2) store)
    as (lq & h1 & k & Heq & _ & H).
  exists lq, h1, k. split; [exact Heq|]. apply H. vm_compute. reflexivity.
Defined.

End Instances.

End Extras.
